(** * Role management and shell output extraction of sgpt

    A shallow embedding of [sgpt/role.py] (role templates, the role store,
    the role selector) and of the shell functions that [sgpt/integration.py]
    installs into the interactive shell ([_parse_first_markdown],
    [_parse_last_markdown], [_sgpt_bash_fix]).

    Conventions.
    - A Python [str] is a [string]; one [ascii] stands for one code point
      below 256.
    - Code that raises returns [Raise e]; code that also touches the role
      storage or asks the user runs in the monad [M] over [world].
    - A stage of a shell pipeline maps the text it reads to the text it
      writes. *)

From Stdlib Require Import Ascii String List Bool Arith Lia.
From stdpp Require Import gmap strings list fin_maps.

Import ListNotations.
Local Open Scope stdpp_scope.

(** ** Characters and strings *)

Definition LF : ascii := "010"%char.
Definition CR : ascii := "013"%char.
Definition TAB : ascii := "009"%char.
Definition DQUOTE : ascii := "034"%char.
Definition BACKSLASH : ascii := "092"%char.
Definition BACKTICK : ascii := "096"%char.

Definition str1 (c : ascii) : string := String c EmptyString.

Definition code (c : ascii) : nat := nat_of_ascii c.

Definition is_empty (s : string) : bool :=
  match s with EmptyString => true | _ => false end.

(** [s.startswith(p)] *)
Fixpoint starts_with (p s : string) : bool :=
  match p, s with
  | EmptyString, _ => true
  | String a p', String b s' => if ascii_dec a b then starts_with p' s' else false
  | String _ _, EmptyString => false
  end.

(** [p in s] for strings *)
Fixpoint contains (p s : string) : bool :=
  starts_with p s ||
  match s with
  | EmptyString => false
  | String _ s' => contains p s'
  end.

Fixpoint drop_chars (n : nat) (s : string) : string :=
  match n, s with
  | S n', String _ s' => drop_chars n' s'
  | _, _ => s
  end.

Fixpoint rev_string_onto (s acc : string) : string :=
  match s with
  | EmptyString => acc
  | String c s' => rev_string_onto s' (String c acc)
  end.

Definition rev_string (s : string) : string := rev_string_onto s EmptyString.

Fixpoint drop_while (p : ascii -> bool) (s : string) : string :=
  match s with
  | EmptyString => EmptyString
  | String c s' => if p c then drop_while p s' else s
  end.

(** Characters removed from both ends: the longest prefix and the longest
    suffix made of characters satisfying [p]. *)
Definition trim (p : ascii -> bool) (s : string) : string :=
  rev_string (drop_while p (rev_string (drop_while p s))).

Fixpoint join (sep : string) (l : list string) : string :=
  match l with
  | [] => EmptyString
  | [x] => x
  | x :: rest => x +:+ sep +:+ join sep rest
  end.

Fixpoint concat_strings (l : list string) : string :=
  match l with
  | [] => EmptyString
  | x :: rest => x +:+ concat_strings rest
  end.

(** ** Python string methods used by [role.py] *)

(** [str.isspace] on one code point below 256. *)
Definition py_isspace (c : ascii) : bool :=
  let n := code c in
  ((9 <=? n) && (n <=? 13)) || ((28 <=? n) && (n <=? 32))
  || (n =? 133) || (n =? 160).

(** [s.strip()] *)
Definition py_strip (s : string) : string := trim py_isspace s.

(** Line boundaries of [str.splitlines] below 256, the pair CR LF apart. *)
Definition py_linebreak (c : ascii) : bool :=
  let n := code c in
  ((10 <=? n) && (n <=? 13)) || ((28 <=? n) && (n <=? 30)) || (n =? 133).

Fixpoint splitlines_from (cur : string) (s : string) : list string :=
  match s with
  | EmptyString => if is_empty cur then [] else [rev_string cur]
  | String c rest =>
      if py_linebreak c then
        match ascii_dec c CR, rest with
        | left _, String d rest' =>
            if ascii_dec d LF then rev_string cur :: splitlines_from EmptyString rest'
            else rev_string cur :: splitlines_from EmptyString rest
        | _, _ => rev_string cur :: splitlines_from EmptyString rest
        end
      else splitlines_from (String c cur) rest
  end.

(** [s.splitlines()] *)
Definition py_splitlines (s : string) : list string :=
  splitlines_from EmptyString s.

(** [s.split(sep)] for a non-empty [sep]: pieces between the occurrences of
    [sep], found left to right without overlap. [skip] counts the characters
    of an occurrence that are still to be passed over. *)
Fixpoint split_from (sep : string) (skip : nat) (cur : string) (s : string)
  : list string :=
  match s with
  | EmptyString => [rev_string cur]
  | String c rest =>
      match skip with
      | S k => split_from sep k cur rest
      | O =>
          if starts_with sep s then
            rev_string cur :: split_from sep (String.length sep - 1) EmptyString rest
          else split_from sep O (String c cur) rest
      end
  end.

Definition py_split (sep s : string) : list string := split_from sep 0 EmptyString s.

(** ** Exceptions and results *)

(** The exceptions of the modelled code. [OutsideModel] marks an input on
    which the embedding says nothing (a format field with a conversion, a
    stored file that is not a JSON object of strings, ...). *)
Inductive exn : Type :=
  | BadArgumentUsage (msg : string)
  | Abort
  | KeyError (key : string)
  | IndexError
  | ValueError
  | TypeError
  | FileNotFoundError
  | OutsideModel.

Inductive result (A : Type) : Type :=
  | Ok (a : A)
  | Raise (e : exn).
Arguments Ok {A} a.
Arguments Raise {A} e.

Definition result_map {A B} (f : A -> B) (r : result A) : result B :=
  match r with Ok a => Ok (f a) | Raise e => Raise e end.

Definition result_bind {A B} (r : result A) (f : A -> result B) : result B :=
  match r with Ok a => f a | Raise e => Raise e end.

Definition is_ok {A} (r : result A) : bool :=
  match r with Ok _ => true | Raise _ => false end.

(** ** [str.format] with keyword arguments only *)

Definition ceq (a b : ascii) : bool := if ascii_dec a b then true else false.

(** Characters that give a replacement field more structure than a plain
    keyword: nested braces, a conversion, a format spec, attribute and index
    access. *)
Definition field_special (c : ascii) : bool :=
  ceq c "{" || ceq c "!" || ceq c ":" || ceq c "." || ceq c "[" || ceq c "]".

Definition is_digit (c : ascii) : bool := (48 <=? code c) && (code c <=? 57).

Fixpoint all_chars (p : ascii -> bool) (s : string) : bool :=
  match s with
  | EmptyString => true
  | String c s' => p c && all_chars p s'
  end.

(** The value of the field [name]: an empty name numbers the positional
    arguments, of which a call with keywords only has none; a number indexes them. *)
Definition get_field (kw : gmap string string) (name : string) : result string :=
  if is_empty name then Raise IndexError
  else if all_chars is_digit name then Raise OutsideModel
  else match kw !! name with
       | Some v => Ok v
       | None => Raise (KeyError name)
       end.

(** [field = None]: in literal text; [field = Some acc]: inside a replacement
    field whose name read so far is [acc], reversed. Errors come in the order
    of the text, as the output is built left to right. *)
Fixpoint format_from (kw : gmap string string) (field : option string) (s : string)
  : result string :=
  match field, s with
  | None, EmptyString => Ok EmptyString
  | None, String c rest =>
      if ceq c "{" then
        match rest with
        | String d rest' =>
            if ceq d "{" then result_map (String "{") (format_from kw None rest')
            else format_from kw (Some EmptyString) rest
        | EmptyString => Raise ValueError
        end
      else if ceq c "}" then
        match rest with
        | String d rest' =>
            if ceq d "}" then result_map (String "}") (format_from kw None rest')
            else Raise ValueError
        | EmptyString => Raise ValueError
        end
      else result_map (String c) (format_from kw None rest)
  | Some acc, EmptyString => Raise ValueError
  | Some acc, String c rest =>
      if ceq c "}" then
        result_bind (get_field kw (rev_string acc)) (fun v =>
        result_map (String.app v) (format_from kw None rest))
      else if field_special c then Raise OutsideModel
      else format_from kw (Some (String c acc)) rest
  end.

(** [template.format] applied to the keywords [kw] *)
Definition format (template : string) (kw : gmap string string) : result string :=
  format_from kw None template.

(** ** Role templates *)

Definition SHELL_ROLE : string :=
"You are a {shell} shell command generator for {os}
Generate only valid bash commands, without explanations or additional text.
Handle incomplete prompts by providing the most logical solution.
Combine multiple steps using && when necessary.
Output plain text only, without formatting or markdown.
Ensure commands are concise, efficient, and adhere to best practices.
Consider edge cases and potential errors, and handle them appropriately.
Optimize commands for performance and resource usage when relevant.
Use clear and standard syntax, following bash conventions.
Remember, output the command described in natural language, then stop typing anything.
Any text after the first newline is going to be discarded unless you choose to place the {shell} shell text in markdown.
The task prescribed to you is only to translate from natural language to {shell} shell commands.".

Definition DESCRIBE_SHELL_ROLE : string :=
"You are a Shell Command Descriptor.
For a given {shell} shell command in {os}
* Provide a concise, single-sentence description.
* Explain each argument and option of the command in a brief paragraph.
* Use Markdown formatting with triple or single backticks when appropriate, ensuring proper syntax with opening and closing backticks.
* Keep text inside Markdown concise and descriptions as short as possible.
* Use clear, technical language and maintain a consistent structure for each command description.
* Highlight key aspects such as required vs. optional arguments and default behaviors.
* Provide usage examples if necessary for clarity, using Markdown for code blocks.
* Ensure accuracy and completeness in your descriptions.".

Definition SHELL_COMMAND_FIXER_ROLE : string :=
"You are a {shell} Shell Command Fixer operating within a controlled installation of {os}
Analyze single-line {shell} commands for potential errors.
If erroneous, provide a corrected command that is both valid and optimized.
Address common errors like incorrect flags, missing arguments, or syntax issues.
Consider edge cases and potential unintended consequences.
Explain corrections concisely using Markdown formatting.
Suggest alternative approaches when applicable.
Output valid commands verbatim.
Ensure that you take reasonable steps to ensure compatibility with the user's {shell} shell version and OS.
Output the fixed or original command followed by any explanations or suggestions.
Avoid placeholders unless present in the original command.
Prioritize working solutions that align with the user's intent, avoiding unnecessary simplification.".

Definition CODE_ROLE : string :=
"You are a Code Generator.
Generate code snippets or scripts based on the provided prompt.
Output the code directly, without explanations or descriptions.
Use plain text format without markdown or code delimiters.
Assume the most logical solution for incomplete prompts.
Focus on concise, functional code adhering to best practices.
Infer the programming language from the prompt if not specified.
Prioritize code clarity and brevity.
".

Definition DEFAULT_ROLE : string :=
"You are ShellGPT, a {os} system administrator with expertise in the {shell} shell.
Respond concisely, aiming for around 100 words unless more detail is needed.
Utilize Markdown formatting for commands (bash code blocks) and code tools (Python Jupyter notebook cells).
Explain complex topics clearly, using examples when beneficial.
Adapt your communication style to the user's specific requirements.
Assume data storage within the conversation context.
Provide step-by-step guidance for tasks and troubleshooting.
Prioritize accurate, efficient solutions based on best practices.
Generate executable code and shell commands without requiring modifications.
Prompt for additional information when necessary.
Focus on fulfilling the user's specific needs.
".

Definition ROLE_TEMPLATE : string := "You are {name}" +:+ str1 LF +:+ "{role}".

(** ** [json.dumps] and [json.loads] on objects of strings *)

Definition hex_digit (n : nat) : ascii :=
  match n with
  | 0 => "0" | 1 => "1" | 2 => "2" | 3 => "3" | 4 => "4" | 5 => "5" | 6 => "6"
  | 7 => "7" | 8 => "8" | 9 => "9" | 10 => "a" | 11 => "b" | 12 => "c"
  | 13 => "d" | 14 => "e" | _ => "f"
  end%char.

Definition hex_value (c : ascii) : option nat :=
  let n := code c in
  if (48 <=? n) && (n <=? 57) then Some (n - 48)
  else if (97 <=? n) && (n <=? 102) then Some (n - 87)
  else if (65 <=? n) && (n <=? 70) then Some (n - 55)
  else None.

(** One character of a string as [json.dumps] writes it with its default
    [ensure_ascii=True]: short escapes for the quote, the backslash and five
    control characters, a four-digit escape for everything else outside
    the printable range from the space to the tilde. *)
Definition json_escape_char (c : ascii) : string :=
  if ceq c DQUOTE then String BACKSLASH (str1 DQUOTE)
  else if ceq c BACKSLASH then String BACKSLASH (str1 BACKSLASH)
  else if ceq c LF then String BACKSLASH "n"
  else if ceq c CR then String BACKSLASH "r"
  else if ceq c TAB then String BACKSLASH "t"
  else if ceq c "008" then String BACKSLASH "b"
  else if ceq c "012" then String BACKSLASH "f"
  else if (code c <? 32) || (126 <? code c) then
    String BACKSLASH
      (String "u" (String "0" (String "0"
        (String (hex_digit (code c / 16)) (str1 (hex_digit (code c mod 16)))))))
  else str1 c.

Fixpoint json_escape (s : string) : string :=
  match s with
  | EmptyString => EmptyString
  | String c s' => json_escape_char c +:+ json_escape s'
  end.

Definition json_string (s : string) : string :=
  String DQUOTE (json_escape s +:+ str1 DQUOTE).

Definition json_item (kv : string * string) : string :=
  json_string (fst kv) +:+ ": " +:+ json_string (snd kv).

(** [json.dumps(d)] for a dict [d] of strings, given as its items in
    insertion order. *)
Definition json_dumps (d : list (string * string)) : string :=
  "{" +:+ join ", " (map json_item d) +:+ "}".

(** Where the reader stands inside a string literal. *)
Inductive strmode : Type :=
  | Plain
  | Escaped
  | Hex (todo : nat) (value : nat).

(** Where the reader stands in the document; [d] holds the items read so
    far, the latest first. *)
Inductive jstate : Type :=
  | JStart
  | JKeyOrClose
  | JKey (d : list (string * string))
  | JInKey (d : list (string * string)) (acc : string) (m : strmode)
  | JColon (d : list (string * string)) (k : string)
  | JValue (d : list (string * string)) (k : string)
  | JInValue (d : list (string * string)) (k : string) (acc : string) (m : strmode)
  | JCommaOrClose (d : list (string * string))
  | JDone (d : list (string * string)).

Definition json_ws (c : ascii) : bool :=
  ceq c " " || ceq c TAB || ceq c LF || ceq c CR.

(** One character inside a string literal: [inl] the literal goes on with
    the text [acc] (reversed) in mode [m], [inr tt] it is closed. *)
Definition string_step (acc : string) (m : strmode) (c : ascii)
  : option (string * strmode + unit) :=
  match m with
  | Plain =>
      if ceq c DQUOTE then Some (inr tt)
      else if ceq c BACKSLASH then Some (inl (acc, Escaped))
      else if (code c <? 32) || (127 <? code c) then None
      else Some (inl (String c acc, Plain))
  | Escaped =>
      if ceq c DQUOTE then Some (inl (String DQUOTE acc, Plain))
      else if ceq c BACKSLASH then Some (inl (String BACKSLASH acc, Plain))
      else if ceq c "/" then Some (inl (String "/"%char acc, Plain))
      else if ceq c "b" then Some (inl (String "008"%char acc, Plain))
      else if ceq c "f" then Some (inl (String "012"%char acc, Plain))
      else if ceq c "n" then Some (inl (String LF acc, Plain))
      else if ceq c "r" then Some (inl (String CR acc, Plain))
      else if ceq c "t" then Some (inl (String TAB acc, Plain))
      else if ceq c "u" then Some (inl (acc, Hex 4 0))
      else None
  | Hex todo value =>
      match hex_value c with
      | None => None
      | Some h =>
          let v := 16 * value + h in
          match todo with
          | 0 | 1 =>
              if v <? 256 then Some (inl (String (ascii_of_nat v) acc, Plain))
              else None
          | S k => Some (inl (acc, Hex k v))
          end
      end
  end.

Definition json_step (st : jstate) (c : ascii) : option jstate :=
  match st with
  | JStart =>
      if json_ws c then Some JStart
      else if ceq c "{" then Some JKeyOrClose
      else None
  | JKeyOrClose =>
      if json_ws c then Some JKeyOrClose
      else if ceq c "}" then Some (JDone [])
      else if ceq c DQUOTE then Some (JInKey [] EmptyString Plain)
      else None
  | JKey d =>
      if json_ws c then Some (JKey d)
      else if ceq c DQUOTE then Some (JInKey d EmptyString Plain)
      else None
  | JInKey d acc m =>
      match string_step acc m c with
      | Some (inl (acc', m')) => Some (JInKey d acc' m')
      | Some (inr _) => Some (JColon d (rev_string acc))
      | None => None
      end
  | JColon d k =>
      if json_ws c then Some (JColon d k)
      else if ceq c ":" then Some (JValue d k)
      else None
  | JValue d k =>
      if json_ws c then Some (JValue d k)
      else if ceq c DQUOTE then Some (JInValue d k EmptyString Plain)
      else None
  | JInValue d k acc m =>
      match string_step acc m c with
      | Some (inl (acc', m')) => Some (JInValue d k acc' m')
      | Some (inr _) => Some (JCommaOrClose ((k, rev_string acc) :: d))
      | None => None
      end
  | JCommaOrClose d =>
      if json_ws c then Some (JCommaOrClose d)
      else if ceq c "," then Some (JKey d)
      else if ceq c "}" then Some (JDone d)
      else None
  | JDone d =>
      if json_ws c then Some (JDone d) else None
  end.

Fixpoint json_run (st : jstate) (s : string) : option jstate :=
  match s with
  | EmptyString => Some st
  | String c rest =>
      match json_step st c with
      | Some st' => json_run st' rest
      | None => None
      end
  end.

(** [json.loads(text)] where [text] is a JSON object whose values are all
    strings, written in ASCII, with no escape of a code point above 255: its
    items in
    order of the text. [None] on any other text, which the real decoder
    rejects or decodes to a value this embedding does not represent. *)
Definition json_loads (text : string) : option (list (string * string)) :=
  match json_run JStart text with
  | Some (JDone d) => Some (rev d)
  | _ => None
  end.

(** ** The world of the role store *)

(** [files] maps each file of the storage directory, by its file name, to its
    content; [answers] holds the answers the user will give to the coming
    confirmation prompts. Creating the storage directory leaves both as they
    are. The directory is flat: a key is the name of a file in it, and a
    path with a slash is no such name. What the store does for a role name
    with a slash is therefore not what a file system does, and the facts
    that depend on which file a name reaches are stated for the names that
    are file names ([plain_role_name]). *)
Record world : Type := World {
  files : gmap string string;
  answers : list bool
}.

(** A computation returns or raises, and leaves a world behind either way. *)
Definition M (A : Type) : Type := world -> result A * world.

Definition ret {A} (a : A) : M A := fun w => (Ok a, w).

Definition raise {A} (e : exn) : M A := fun w => (Raise e, w).

Definition bind {A B} (m : M A) (f : A -> M B) : M B :=
  fun w =>
    match m w with
    | (Ok a, w') => f a w'
    | (Raise e, w') => (Raise e, w')
    end.

Definition lift {A} (r : result A) : M A := fun w => (r, w).

Notation "'do' x <- m ; k" := (bind m (fun x => k))
  (at level 10, x name, m at level 100, k at level 200).
Notation "'run' m ; k" := (bind m (fun _ => k))
  (at level 10, m at level 100, k at level 200).

Fixpoint mapM {A B} (f : A -> M B) (l : list A) : M (list B) :=
  match l with
  | [] => ret []
  | x :: rest => do y <- f x ; do ys <- mapM f rest ; ret (y :: ys)
  end.

Fixpoint forM_ {A} (l : list A) (f : A -> M unit) : M unit :=
  match l with
  | [] => ret tt
  | x :: rest => run f x ; forM_ rest f
  end.

(** [path.exists()] *)
Definition path_exists (path : string) : M bool :=
  fun w => (Ok (bool_decide (is_Some (files w !! path))), w).

(** [path.read_text()] *)
Definition read_text (path : string) : M string :=
  fun w =>
    match files w !! path with
    | Some text => (Ok text, w)
    | None => (Raise FileNotFoundError, w)
    end.

(** [path.write_text(text)] for a file of the storage directory, which
    [__init__] has created by then. *)
Definition write_text (path text : string) : M unit :=
  fun w => (Ok tt, World (<[path := text]> (files w)) (answers w)).

(** [typer.confirm(..., abort=True)]: returns on a yes, raises [Abort] on a
    no and when the input has ended. *)
Definition confirm : M unit :=
  fun w =>
    match answers w with
    | true :: rest => (Ok tt, World (files w) rest)
    | false :: rest => (Raise Abort, World (files w) rest)
    | [] => (Raise Abort, w)
    end.

(** [storage.mkdir(parents=True, exist_ok=True)] *)
Definition mkdir_storage : M unit := ret tt.

(** ** [SystemRole] *)

Record SystemRole : Type := MkRole {
  name : string;
  role : string
}.

(** [SystemRole(name, role, variables)]: the template is formatted only when
    [variables] is a non-empty mapping. *)
Definition SystemRole_init (name role : string)
    (variables : option (gmap string string)) : M SystemRole :=
  run mkdir_storage ;
  do role' <- lift (match variables with
                 | Some v => if decide (v = ∅) then Ok role else format role v
                 | None => Ok role
                 end) ;
  ret (MkRole name role').

(** [self._file_path], as the key of the file in [files]: the file name the
    path ends with when the name of the role is a file name. *)
Definition _file_path (self : SystemRole) : string := name self +:+ ".json".

Definition _exists (self : SystemRole) : M bool := path_exists (_file_path self).

(** The instance dictionary of a role, in the order [__init__] fills it. *)
Definition __dict__ (self : SystemRole) : list (string * string) :=
  [("name", name self); ("role", role self)].

(** [self._save()], returning [self] as the call leaves it. *)
Definition _save (self : SystemRole) : M SystemRole :=
  do e <- _exists self ;
  run (if e then confirm else ret tt) ;
  do role' <- lift (format ROLE_TEMPLATE
                   (<["name" := name self]> (<["role" := role self]> ∅))) ;
  let self' := MkRole (name self) role' in
  run write_text (_file_path self') (json_dumps (__dict__ self')) ;
  ret self'.

(** The host's shell and operating system as [_shell_name] and [_os_name]
    report them. *)
Record platform : Type := Platform {
  shell_name : string;
  os_name : string
}.

Definition default_variables (p : platform) : gmap string string :=
  <["shell" := shell_name p]> (<["os" := os_name p]> ∅).

(** The arguments of the five constructor calls of [create_defaults]. *)
Definition default_role_args (p : platform)
  : list (string * string * option (gmap string string)) :=
  let variables := default_variables p in
  [ ("ShellGPT", DEFAULT_ROLE, Some variables);
    ("Shell Command Generator", SHELL_ROLE, Some variables);
    ("Shell Command Descriptor", DESCRIBE_SHELL_ROLE, Some variables);
    ("Code Generator", CODE_ROLE, None);
    ("Shell Command Fixer", SHELL_COMMAND_FIXER_ROLE, Some variables) ].

Definition save_if_missing (default_role : SystemRole) : M unit :=
  do e <- _exists default_role ;
  if e then ret tt else (run _save default_role ; ret tt).

(** The body of [create_defaults] over the arguments of its constructor
    calls: the tuple of roles is built first, the loop runs after. *)
Definition create_roles (args : list (string * string * option (gmap string string)))
  : M unit :=
  do roles <- mapM (fun '(n, t, v) => SystemRole_init n t v) args ;
  forM_ roles save_if_missing.

(** [SystemRole.create_defaults()] *)
Definition create_defaults (p : platform) : M unit :=
  run mkdir_storage ;
  create_roles (default_role_args p).

(** The last value stored for [k], as in a dict built from [items]. *)
Fixpoint dict_get (k : string) (items : list (string * string)) : option string :=
  match items with
  | [] => None
  | (k', v) :: rest =>
      match dict_get k rest with
      | Some v' => Some v'
      | None => if decide (k' = k) then Some v else None
      end
  end.

(** The constructor called on the keyword arguments [kwargs], all strings. A
    [variables] argument that is a string is outside the model. *)
Definition SystemRole_from_kwargs (kwargs : list (string * string)) : M SystemRole :=
  if existsb (fun kv => bool_decide (fst kv = "variables")) kwargs
  then raise OutsideModel
  else if forallb (fun kv => bool_decide (fst kv = "name") || bool_decide (fst kv = "role")) kwargs
  then match dict_get "name" kwargs, dict_get "role" kwargs with
       | Some n, Some r => SystemRole_init n r None
       | _, _ => raise TypeError
       end
  else raise TypeError.

(** [SystemRole.get(name)] *)
Definition get (name : string) : M SystemRole :=
  let file_path := name +:+ ".json" in
  do e <- path_exists file_path ;
  if negb e
  then raise (BadArgumentUsage ("Role " +:+ str1 DQUOTE +:+ name +:+ str1 DQUOTE +:+ " not found."))
  else
    do text <- read_text file_path ;
    match json_loads text with
    | Some kwargs => SystemRole_from_kwargs kwargs
    | None => raise OutsideModel
    end.

(** [self.delete()] *)
Definition delete_role (self : SystemRole) : M unit :=
  do e <- _exists self ;
  run (if e then confirm else ret tt) ;
  fun w =>
    match files w !! _file_path self with
    | Some _ => (Ok tt, World (delete (_file_path self) (files w)) (answers w))
    | None => (Raise FileNotFoundError, w)
    end.

(** [SystemRole.get_role_name(initial_message)] *)
Definition get_role_name (initial_message : string) : result (option string) :=
  if is_empty initial_message then Ok None
  else
    match py_splitlines initial_message with
    | [] => Raise IndexError
    | line0 :: _ =>
        if contains "You are" line0 then
          match py_split "You are " line0 with
          | _ :: piece :: _ => Ok (Some (py_strip piece))
          | _ => Raise IndexError
          end
        else Ok None
    end.

(** [self.same_role(initial_message)] *)
Definition same_role (self : SystemRole) (initial_message : string) : bool :=
  if is_empty initial_message then false
  else contains ("You are " +:+ name self) initial_message.

(** ** [DefaultRoles] *)

Inductive DefaultRoles : Type :=
  | DEFAULT
  | SHELL
  | SHELL_COMMAND_FIXER
  | DESCRIBE_SHELL
  | CODE.

Definition value (r : DefaultRoles) : string :=
  match r with
  | DEFAULT => "ShellGPT"
  | SHELL => "Shell Command Generator"
  | SHELL_COMMAND_FIXER => "Shell Command Fixer"
  | DESCRIBE_SHELL => "Shell Command Descriptor"
  | CODE => "Code Generator"
  end.

(** [DefaultRoles.check_get(shell, describe_shell, code, shell_fix)] *)
Definition check_get (shell describe_shell code shell_fix : bool) : M SystemRole :=
  if shell then get (value SHELL)
  else if describe_shell then get (value DESCRIBE_SHELL)
  else if code then get (value CODE)
  else if shell_fix then get (value SHELL_COMMAND_FIXER)
  else get (value DEFAULT).

(** [self.get_role()] *)
Definition get_role (self : DefaultRoles) : M SystemRole := get (value self).

(** ** Basic regular expressions of [sed] *)

(** The constructs the shell functions use. [Group] is the one capturing
    group a pattern may hold. *)
Inductive regex : Type :=
  | Empty
  | Chr (c : ascii)
  | AnyChar
  | NotChr (c : ascii)
  | SpaceClass
  | Bol
  | Eol
  | Seq (r1 r2 : regex)
  | Star (r : regex)
  | AtLeastOne (r : regex)
  | Optional (r : regex)
  | Group (r : regex).

Fixpoint lit (s : string) : regex :=
  match s with
  | EmptyString => Empty
  | String c s' => Seq (Chr c) (lit s')
  end.

Fixpoint seq_of (l : list regex) : regex :=
  match l with
  | [] => Empty
  | [r] => r
  | r :: rest => Seq r (seq_of rest)
  end.

(** [[:space:]]: space, tab, line feed, vertical tab, form feed, carriage
    return. *)
Definition is_space (c : ascii) : bool :=
  (code c =? 32) || ((9 <=? code c) && (code c <=? 13)).

(** A point reached while matching one line: whether it is the start of the
    line, the text still ahead, the text of the group if it took part. *)
Record mstate : Type := MState {
  at_start : bool;
  rest : string;
  group1 : option string
}.

Fixpoint take_chars (n : nat) (s : string) : string :=
  match n, s with
  | S n', String c s' => String c (take_chars n' s')
  | _, _ => EmptyString
  end.

Definition one_char (p : ascii -> bool) (st : mstate) : list mstate :=
  match rest st with
  | String d t => if p d then [MState false t (group1 st)] else []
  | EmptyString => []
  end.

Definition progress (st st' : mstate) : bool :=
  String.length (rest st') <? String.length (rest st).

(** Repetitions of [step], the longer ones first; an iteration that consumes
    nothing ends the repetition. *)
Fixpoint star_from (step : mstate -> list mstate) (fuel : nat) (st : mstate)
  : list mstate :=
  match fuel with
  | 0 => [st]
  | S k => flat_map (star_from step k) (List.filter (progress st) (step st)) ++ [st]
  end.

(** All the ways [r] matches at [st], each given by the point it reaches. *)
Fixpoint rmatch (r : regex) (st : mstate) : list mstate :=
  match r with
  | Empty => [st]
  | Chr c => one_char (ceq c) st
  | AnyChar => one_char (fun _ => true) st
  | NotChr c => one_char (fun d => negb (ceq c d)) st
  | SpaceClass => one_char is_space st
  | Bol => if at_start st then [st] else []
  | Eol => if is_empty (rest st) then [st] else []
  | Seq r1 r2 => flat_map (rmatch r2) (rmatch r1 st)
  | Star r' => star_from (rmatch r') (String.length (rest st)) st
  | AtLeastOne r' =>
      flat_map (fun st' => star_from (rmatch r') (String.length (rest st')) st')
               (rmatch r' st)
  | Optional r' => rmatch r' st ++ [st]
  | Group r' =>
      map (fun st' =>
             MState (at_start st') (rest st')
               (Some (take_chars (String.length (rest st) - String.length (rest st'))
                                 (rest st))))
          (rmatch r' st)
  end.

(** The longest of the matches, the first of them among equals. *)
Fixpoint longest (l : list mstate) : option mstate :=
  match l with
  | [] => None
  | m :: l' =>
      match longest l' with
      | Some m' =>
          if String.length (rest m') <? String.length (rest m) then Some m' else Some m
      | None => Some m
      end
  end.

(** The leftmost match of [re] in a line, the longest at that place: the text
    before it and the point it reaches. *)
Fixpoint search_from (re : regex) (start : bool) (before : string) (s : string)
  : option (string * mstate) :=
  match longest (rmatch re (MState start s None)) with
  | Some m => Some (rev_string before, m)
  | None =>
      match s with
      | EmptyString => None
      | String c t => search_from re false (String c before) t
      end
  end.

Definition regex_search (re : regex) (line : string) : option (string * mstate) :=
  search_from re true EmptyString line.

Definition line_matches (re : regex) (line : string) : bool :=
  match regex_search re line with Some _ => true | None => false end.

(** ** [sed] *)

Inductive replacement_piece : Type :=
  | RText (s : string)
  | RGroup1.

Inductive sed_command : Type :=
  | Subst (re : regex) (replacement : list replacement_piece)
  | RangePrint (first last : regex).

Record sed_script : Type := SedScript {
  quiet : bool;
  commands : list sed_command
}.

Definition expand (m : mstate) (p : replacement_piece) : string :=
  match p with
  | RText s => s
  | RGroup1 => match group1 m with Some g => g | None => EmptyString end
  end.

(** [s/re/replacement/] on one line: the first match is replaced. *)
Definition substitute (re : regex) (replacement : list replacement_piece)
    (line : string) : string :=
  match regex_search re line with
  | Some (before, m) =>
      before +:+ concat_strings (map (expand m) replacement) +:+ rest m
  | None => line
  end.

(** One cycle: the commands run in order on the pattern space [ps];
    [active] tells for each command whether its range is open. Returns the
    pattern space, the lines printed by [p], and the ranges open afterwards.
    A range opened on a line is tested for its end from the next line on. *)
Fixpoint sed_cycle (cmds : list sed_command) (active : list bool) (ps : string)
  : string * list string * list bool :=
  match cmds with
  | [] => (ps, [], [])
  | c :: cs =>
      let a := hd false active in
      let '(ps1, out1, a1) :=
        match c with
        | Subst re replacement => (substitute re replacement ps, [], false)
        | RangePrint first last =>
            if a then (ps, [ps], negb (line_matches last ps))
            else if line_matches first ps then (ps, [ps], true)
            else (ps, [], false)
        end in
      let '(ps2, out2, a2) := sed_cycle cs (tl active) ps1 in
      (ps2, out1 ++ out2, a1 :: a2)
  end.

Fixpoint sed_lines (script : sed_script) (active : list bool) (input : list string)
  : list string :=
  match input with
  | [] => []
  | l :: input' =>
      let '(ps, out, active') := sed_cycle (commands script) active l in
      out ++ (if quiet script then [] else [ps]) ++ sed_lines script active' input'
  end.

(** ** Streams and the shell *)

(** The lines of a stream: a line feed ends a line, and the text after the
    last line feed, when there is some, is a line too. *)
Fixpoint lines_from (cur : string) (s : string) : list string :=
  match s with
  | EmptyString => if is_empty cur then [] else [rev_string cur]
  | String c s' =>
      if ceq c LF then rev_string cur :: lines_from EmptyString s'
      else lines_from (String c cur) s'
  end.

Definition lines_of (text : string) : list string := lines_from EmptyString text.

Definition unlines (l : list string) : string :=
  concat_strings (map (fun x => x +:+ str1 LF) l).

(** [sed script], or [sed -n script] for a quiet one, on its input stream. A
    script that [sed] rejects is [None]: [sed] then writes nothing to its
    output. Every stream that reaches [sed] here is empty or ends with a line
    feed, and so does the output. *)
Definition sed (script : option sed_script) (input : string) : string :=
  match script with
  | Some sc => unlines (sed_lines sc [] (lines_of input))
  | None => EmptyString
  end.

(** [head -n 1] *)
Definition head_n1 (input : string) : string := unlines (firstn 1 (lines_of input)).

(** [tr -d] of the line feed *)
Fixpoint tr_d_lf (input : string) : string :=
  match input with
  | EmptyString => EmptyString
  | String c s => if ceq c LF then tr_d_lf s else String c (tr_d_lf s)
  end.

(** The builtin [echo] takes a first argument made of a dash and then only
    the letters n, e and E as options. *)
Definition echo_option (arg : string) : bool :=
  match arg with
  | String "-" (String c s) =>
      all_chars (fun d => ceq d "n" || ceq d "e" || ceq d "E") (String c s)
  | _ => false
  end.

(** [echo "$arg"] *)
Definition echo (arg : string) : string :=
  if echo_option arg then
    (if contains "n" arg then EmptyString else str1 LF)
  else arg +:+ str1 LF.

(** The value of a command substitution whose command wrote [output]: the
    output without its trailing line feeds. *)
Definition command_substitution (output : string) : string :=
  rev_string (drop_while (ceq LF) (rev_string output)).

(** ** The sed scripts of the shell functions *)

(** The shell text is the value of the string literal [bash_integration],
    which is not a raw literal. Python keeps a backslash that stands before
    a brace, a parenthesis or a question mark, but it turns backslash-n into
    a line feed and backslash-1 into the character of code 1 before the text
    reaches the shell. [AsWritten] reads the scripts as they stand in the
    file, [AsEvaluated] as Python hands them on. *)
Inductive reading : Type :=
  | AsWritten
  | AsEvaluated.

(** An opening fence tagged bash: backticks, the tag, anything but backticks,
    to the end of the line. *)
Definition bash_fence : regex :=
  seq_of [AtLeastOne (Chr BACKTICK); lit "bash"; Star (NotChr BACKTICK);
          Optional (Group (lit " -c")); Eol].

Definition any_backtick : regex := Chr BACKTICK.

(** Unescaped braces are ordinary characters of a basic regular expression:
    the line has to end with a backtick and the four characters that follow
    it here. *)
Definition literal_brace_fence : regex :=
  seq_of [Chr BACKTICK; lit "{1,}"; Eol].

(** The script of the first [sed] of both functions, printing the ranges
    from a line that opens a block to the next line with a backtick:
      sed -n '/`\{1,\}bash[^`]*\( -c\)\?$/,/`/p' *)
Definition bash_block_script : option sed_script :=
  Some (SedScript true [RangePrint bash_fence any_backtick]).

(** The script of the second [sed] of [_parse_first_markdown]:
      sed -n '/`{1,}$/,/`/p' *)
Definition any_block_script : option sed_script :=
  Some (SedScript true [RangePrint literal_brace_fence any_backtick]).

(** The script of the third [sed] of [_parse_first_markdown]:
      sed 's/\n.*//'
    As evaluated its pattern holds a line feed, which ends the command
    before its closing slash: [sed] rejects the script. *)
Definition first_line_script (r : reading) : option sed_script :=
  match r with
  | AsWritten => Some (SedScript false [Subst (Seq (Chr LF) (Star AnyChar)) []])
  | AsEvaluated => None
  end.

Definition leading_space : sed_command := Subst (Seq Bol (Star SpaceClass)) [].
Definition trailing_space : sed_command := Subst (Seq (Star SpaceClass) Eol) [].

(** The script of the last [sed] of [_parse_first_markdown]:
      sed 's/^`\{1,\}\([^`]*\)\?`\{1,\}$/\1/;s/^[[:space:]]*//;s/[[:space:]]*$//'
    As evaluated the replacement of its first command is the character of
    code 1 and not the group. *)
Definition trim_script (r : reading) : option sed_script :=
  let fenced :=
    seq_of [Bol; AtLeastOne (Chr BACKTICK); Optional (Group (Star (NotChr BACKTICK)));
            AtLeastOne (Chr BACKTICK); Eol] in
  Some (SedScript false
    [ Subst fenced (match r with
                    | AsWritten => [RGroup1]
                    | AsEvaluated => [RText (str1 "001")]
                    end);
      leading_space; trailing_space ]).

(** The script of the second [sed] of [_parse_last_markdown], rejected as
    evaluated for the line feeds in its patterns:
      sed 's/^`\{1,\}bash[^`]*\( -c\)\?[[:space:]]*\n*//;s/[[:space:]]*\n*`\{1,\}$//;
           s/^[[:space:]]*//;s/[[:space:]]*$//' *)
Definition strip_fences_script (r : reading) : option sed_script :=
  match r with
  | AsWritten =>
      Some (SedScript false
        [ Subst (seq_of [Bol; AtLeastOne (Chr BACKTICK); lit "bash";
                         Star (NotChr BACKTICK); Optional (Group (lit " -c"));
                         Star SpaceClass; Star (Chr LF)]) [];
          Subst (seq_of [Star SpaceClass; Star (Chr LF);
                         AtLeastOne (Chr BACKTICK); Eol]) [];
          leading_space; trailing_space ])
  | AsEvaluated => None
  end.

(** ** The scripts as texts *)

(** The scripts between their single quotes, character for character as
    they stand in [integration.py]. *)
Definition bash_block_source : string := "/`\{1,\}bash[^`]*\( -c\)\?$/,/`/p".

Definition any_block_source : string := "/`{1,}$/,/`/p".

Definition first_line_source : string := "s/\n.*//".

Definition trim_source : string :=
  "s/^`\{1,\}\([^`]*\)\?`\{1,\}$/\1/;s/^[[:space:]]*//;s/[[:space:]]*$//".

Definition strip_fences_source : string :=
  "s/^`\{1,\}bash[^`]*\( -c\)\?[[:space:]]*\n*//;s/[[:space:]]*\n*`\{1,\}$//;s/^[[:space:]]*//;s/[[:space:]]*$//".

Definition is_octal (c : ascii) : bool := (48 <=? code c) && (code c <=? 55).

Definition octal_value (c : ascii) : nat := code c - 48.

(** A character put before what the rest of a literal evaluates to. *)
Definition put (c : ascii) (rest : option string) : option string :=
  option_map (String c) rest.

(** The value Python gives to the body of a string literal that is not raw:
    a backslash with a line feed is dropped, the escapes of the language
    are replaced, one to three octal digits and two hexadecimal digits give
    the character of that code, and a backslash before any other character
    stays with the character. Escapes that name a code point of 256 or more,
    or a character by its name, are outside the model, as is a malformed
    one: [None]. *)
Fixpoint py_literal_value (s : string) : option string :=
  match s with
  | EmptyString => Some EmptyString
  | String c rest =>
      if negb (ceq c BACKSLASH) then put c (py_literal_value rest)
      else
        match rest with
        | EmptyString => None
        | String d rest1 =>
            if ceq d LF then py_literal_value rest1
            else if ceq d BACKSLASH || ceq d "'" || ceq d DQUOTE
            then put d (py_literal_value rest1)
            else if ceq d "a" then put "007" (py_literal_value rest1)
            else if ceq d "b" then put "008" (py_literal_value rest1)
            else if ceq d "f" then put "012" (py_literal_value rest1)
            else if ceq d "n" then put LF (py_literal_value rest1)
            else if ceq d "r" then put "013" (py_literal_value rest1)
            else if ceq d "t" then put TAB (py_literal_value rest1)
            else if ceq d "v" then put "011" (py_literal_value rest1)
            else if is_octal d then
              match rest1 with
              | EmptyString => put (ascii_of_nat (octal_value d)) (Some EmptyString)
              | String e rest2 =>
                  if negb (is_octal e)
                  then put (ascii_of_nat (octal_value d)) (py_literal_value rest1)
                  else
                    let two := 8 * octal_value d + octal_value e in
                    match rest2 with
                    | EmptyString => put (ascii_of_nat two) (Some EmptyString)
                    | String f rest3 =>
                        if negb (is_octal f)
                        then put (ascii_of_nat two) (py_literal_value rest2)
                        else if 8 * two + octal_value f <? 256
                        then put (ascii_of_nat (8 * two + octal_value f))
                                 (py_literal_value rest3)
                        else None
                    end
              end
            else if ceq d "x" then
              match rest1 with
              | String h1 (String h2 rest3) =>
                  match hex_value h1, hex_value h2 with
                  | Some a, Some b =>
                      put (ascii_of_nat (16 * a + b)) (py_literal_value rest3)
                  | _, _ => None
                  end
              | _ => None
              end
            else if ceq d "N" || ceq d "u" || ceq d "U" then None
            else put BACKSLASH (put d (py_literal_value rest1))
        end
  end.

(** The text of a script that reaches [sed] under a reading. *)
Definition reading_text (r : reading) (source : string) : option string :=
  match r with
  | AsWritten => Some source
  | AsEvaluated => py_literal_value source
  end.

(** A command of a script as [sed] reads it, its regular expressions and
    its replacement still texts. *)
Inductive raw_command : Type :=
  | RawSubst (pattern replacement : string)
  | RawRangePrint (first last : string).

(** What reading a script gives: its commands; the refusal of a text or an
    expression that ends before its closing slash, with which [sed] writes
    nothing; or a script of another shape than those of the shell
    functions. *)
Inductive compiled : Type :=
  | Commands (cmds : list raw_command)
  | Rejected
  | Unsupported.

(** GNU sed's [match_slash]: the text up to the next [slash] that no
    backslash protects, and what follows that slash. A line feed or the end
    of the script before the slash is a failure. After a backslash, the
    letter n of a regular expression becomes a line feed, a protected slash
    or line feed loses its backslash, and any other character keeps it. *)
Fixpoint match_slash (slash : ascii) (regex : bool) (s : string)
  : option (string * string) :=
  match s with
  | EmptyString => None
  | String ch rest =>
      if ceq ch LF then None
      else if ceq ch slash then Some (EmptyString, rest)
      else if ceq ch BACKSLASH then
        match rest with
        | EmptyString => None
        | String d rest' =>
            let kept :=
              if ceq d "n" && regex then str1 LF
              else if negb (ceq d LF)
                      && (negb (ceq d slash) || (negb regex && ceq d "&"))
              then String BACKSLASH (str1 d)
              else str1 d in
            match match_slash slash regex rest' with
            | Some (b, after) => Some (kept +:+ b, after)
            | None => None
            end
        end
      else
        match match_slash slash regex rest with
        | Some (b, after) => Some (String ch b, after)
        | None => None
        end
  end.

(** What follows a command that ends where it should: at the end of the
    script, at a semicolon or at a line feed. *)
Definition after_command (s : string) : option string :=
  match s with
  | EmptyString => Some EmptyString
  | String c rest => if ceq c ";" || ceq c LF then Some rest else None
  end.

Definition add_command (c : raw_command) (r : compiled) : compiled :=
  match r with
  | Commands cmds => Commands (c :: cmds)
  | _ => r
  end.

(** [s] without the prefix [p]. *)
Fixpoint after_prefix (p s : string) : option string :=
  match p, s with
  | EmptyString, _ => Some s
  | String a p', String b s' => if ceq a b then after_prefix p' s' else None
  | String _ _, EmptyString => None
  end.

(** GNU sed's [compile_program] on the two shapes of command the shell
    functions use: a substitution between slashes without flags, and the
    printing of a range between two expressions. *)
Fixpoint compile_program (fuel : nat) (s : string) : compiled :=
  match fuel with
  | 0 => Unsupported
  | S fuel' =>
      match s with
      | EmptyString => Commands []
      | String c rest =>
          if ceq c ";" || is_space c then compile_program fuel' rest
          else if ceq c "s" then
            match after_prefix "/" rest with
            | None => Unsupported
            | Some rest1 =>
                match match_slash "/" true rest1 with
                | None => Rejected
                | Some (pattern, rest2) =>
                    match match_slash "/" false rest2 with
                    | None => Rejected
                    | Some (replacement, rest3) =>
                        match after_command rest3 with
                        | None => Unsupported
                        | Some rest4 =>
                            add_command (RawSubst pattern replacement)
                                        (compile_program fuel' rest4)
                        end
                    end
                end
            end
          else if ceq c "/" then
            match match_slash "/" true rest with
            | None => Rejected
            | Some (first, rest1) =>
                match after_prefix ",/" rest1 with
                | None => Unsupported
                | Some rest2 =>
                    match match_slash "/" true rest2 with
                    | None => Rejected
                    | Some (last, rest3) =>
                        match option_bind _ _ after_command (after_prefix "p" rest3) with
                        | None => Unsupported
                        | Some rest4 =>
                            add_command (RawRangePrint first last)
                                        (compile_program fuel' rest4)
                        end
                    end
                end
            end
          else Unsupported
      end
  end.

Definition sed_compile (script : string) : compiled :=
  compile_program (S (String.length script)) script.

(** The script a reading hands to [sed], or nothing where [sed] refuses the
    text of that reading. *)
Definition checked_script (r : reading) (source : string) (script : sed_script)
  : option sed_script :=
  match option_map sed_compile (reading_text r source) with
  | Some (Commands _) => Some script
  | _ => None
  end.

(** ** The shell functions *)

(** The output of [_parse_first_markdown "$markdown_text"]. *)
Definition _parse_first_markdown (r : reading) (markdown_text : string) : string :=
  let first_code_block :=
    command_substitution (head_n1 (sed bash_block_script (echo markdown_text))) in
  let first_code_block :=
    if is_empty first_code_block
    then command_substitution (head_n1 (sed any_block_script (echo markdown_text)))
    else first_code_block in
  let first_code_block :=
    if is_empty first_code_block
    then command_substitution (sed (first_line_script r) (echo markdown_text))
    else first_code_block in
  sed (trim_script r) (echo first_code_block).

(** The output of [_parse_last_markdown "$markdown_text"]. *)
Definition _parse_last_markdown (r : reading) (markdown_text : string) : string :=
  let last_code_block :=
    command_substitution (sed bash_block_script (echo markdown_text)) in
  if negb (is_empty last_code_block)
  then tr_d_lf (sed (strip_fences_script r) (echo last_code_block))
  else EmptyString.

(** The line editor of the shell: [READLINE_LINE] and [READLINE_POINT]. *)
Record readline : Type := Readline {
  READLINE_LINE : string;
  READLINE_POINT : nat
}.

(** [_sgpt_bash_fix], given what the [sgpt] command writes for a line: the
    line editor the function leaves. What it prints on the way does not
    reach the line editor. *)
Definition _sgpt_bash_fix (r : reading) (sgpt : string -> string) (rl : readline)
  : readline :=
  if negb (is_empty (READLINE_LINE rl)) then
    let fix_explanation := command_substitution (sgpt (READLINE_LINE rl)) in
    let fixed_command := command_substitution (_parse_last_markdown r fix_explanation) in
    Readline fixed_command (String.length fixed_command)
  else rl.

(** ** Notions the statements use *)

(** *** The role store *)

(** The header line [_save] puts before a role text. *)
Definition header (n : string) : string := "You are " +:+ n +:+ str1 LF.

Definition wrapped (self : SystemRole) : SystemRole :=
  MkRole (name self) (header (name self) +:+ role self).

(** The text a built-in template becomes on the platform [p]. *)
Definition instantiated (template : string) (p : platform) : string :=
  match format template (default_variables p) with
  | Ok body => body
  | Raise _ => template
  end.

(** The roles [create_defaults] builds before it saves any. *)
Definition default_roles (p : platform) : list SystemRole :=
  [ MkRole "ShellGPT" (instantiated DEFAULT_ROLE p);
    MkRole "Shell Command Generator" (instantiated SHELL_ROLE p);
    MkRole "Shell Command Descriptor" (instantiated DESCRIBE_SHELL_ROLE p);
    MkRole "Code Generator" CODE_ROLE;
    MkRole "Shell Command Fixer" (instantiated SHELL_COMMAND_FIXER_ROLE p) ].

(** A role stored the way [_save] stores it, and the user agreeing once. *)
Definition poet : SystemRole := MkRole "Poet" (header "Poet" +:+ "Write verse.").
Definition poet_world : world :=
  World {["Poet.json" := json_dumps (__dict__ poet)]} [true].

(** *** The role selector *)

(** The flags in the order of their priority, each with the role it asks
    for. *)
Definition priority_order (shell describe_shell code shell_fix : bool)
  : list (bool * DefaultRoles) :=
  [ (shell, SHELL); (describe_shell, DESCRIBE_SHELL); (code, CODE);
    (shell_fix, SHELL_COMMAND_FIXER) ].

(** The role of the first flag that is set, the default role when none is. *)
Definition by_priority (shell describe_shell code shell_fix : bool) : DefaultRoles :=
  match List.find fst (priority_order shell describe_shell code shell_fix) with
  | Some (_, k) => k
  | None => DEFAULT
  end.

(** *** Templates *)

(** A field name that is a plain keyword: not empty, not a number, free of
    braces and of the characters that start a conversion, a format spec or
    an attribute or index access. *)
Definition plain_field (k : string) : bool :=
  negb (is_empty k) && negb (all_chars is_digit k)
  && all_chars (fun c => negb (field_special c) && negb (ceq c "}")) k.

(** *** Matches *)

(** Every character that [r] can consume satisfies [P]. *)
Fixpoint consumes (P : ascii -> bool) (r : regex) : Prop :=
  match r with
  | Empty | Bol | Eol => True
  | Chr c => P c = true
  | AnyChar => forall d, P d = true
  | NotChr c => forall d, ceq c d = false -> P d = true
  | SpaceClass => forall d, is_space d = true -> P d = true
  | Seq r1 r2 => consumes P r1 /\ consumes P r2
  | Star r' | AtLeastOne r' | Optional r' | Group r' => consumes P r'
  end.

(** [st'] lies ahead of [st] by a text whose characters all satisfy [P]. *)
Definition ahead (P : ascii -> bool) (st st' : mstate) : Prop :=
  exists w, rest st = w +:+ rest st' /\ all_chars P w = true.

(** *** Fences and scenarios *)

(** A line that opens a block tagged bash: somewhere on it a backtick
    and the tag, and no backtick from there to the end of the line. *)
Fixpoint opens_bash_block (line : string) : bool :=
  (starts_with "`bash" line && negb (contains (str1 BACKTICK) (drop_chars 5 line)))
  || match line with
     | EmptyString => false
     | String _ line' => opens_bash_block line'
     end.

(** Some line of the text opens a block tagged bash. *)
Definition has_bash_fence (text : string) : bool :=
  existsb opens_bash_block (lines_of text).

Definition nl : string := str1 LF.

(** A sentence, a block tagged bash holding one command, a closing word. *)
Definition scenario_A : string :=
  "Run this:" +:+ nl +:+ "```bash" +:+ nl +:+ "ls -la" +:+ nl +:+ "```" +:+ nl +:+ "Done.".

(** Two lines and no fence. *)
Definition scenario_B : string := "echo hello" +:+ nl +:+ "and then more text".

(** An explanation, then a block tagged bash with the invocation flag. *)
Definition scenario_C : string :=
  "Explanation text" +:+ nl +:+ "```bash -c" +:+ nl +:+ "fixed --flag value" +:+ nl
  +:+ "more line" +:+ nl +:+ "```".

(** Two blocks tagged bash with a line between them. *)
Definition two_blocks : string :=
  "```bash" +:+ nl +:+ "foo" +:+ nl +:+ "```" +:+ nl +:+ "then" +:+ nl
  +:+ "```bash" +:+ nl +:+ "bar" +:+ nl +:+ "```".

(** The fix function called on a mistyped command when the answer of
    [sgpt] holds no block. *)
Definition plain_answer (line : string) : string :=
  "The command " +:+ line +:+ " is not installed." +:+ nl.

(** ** The platform descriptor *)

(** What [platform], [distro] and the environment tell about the host:
    [platform.system()], [distro.name(pretty=True)], [platform.release()],
    the first component of [platform.mac_ver()], the variables [SHELL] and
    [PSModulePath] where they are set, and [os.pathsep]. *)
Record host : Type := Host {
  platform_system : string;
  distro_name : string;
  platform_release : string;
  mac_ver : string;
  env_SHELL : option string;
  env_PSModulePath : option string;
  pathsep : string
}.

(** [getenv(var, default)] *)
Definition getenv (var : option string) (default : string) : string :=
  match var with
  | Some v => v
  | None => default
  end.

Fixpoint basename_from (cur : string) (s : string) : string :=
  match s with
  | EmptyString => rev_string cur
  | String c s' =>
      if ceq c "/" then basename_from EmptyString s'
      else basename_from (String c cur) s'
  end.

(** [os.path.basename(p)] where paths are POSIX paths: what follows the last
    slash. *)
Definition basename (p : string) : string := basename_from EmptyString p.

(** [SystemRole._os_name()] *)
Definition _os_name (h : host) : string :=
  let current_platform := platform_system h in
  if decide (current_platform = "Linux") then "Linux/" +:+ distro_name h
  else if decide (current_platform = "Windows") then "Windows " +:+ platform_release h
  else if decide (current_platform = "Darwin") then "Darwin/MacOS " +:+ mac_ver h
  else current_platform.

(** [SystemRole._shell_name()] *)
Definition _shell_name (h : host) : string :=
  let current_platform := platform_system h in
  if bool_decide (current_platform = "Windows") || bool_decide (current_platform = "nt")
  then
    let is_powershell :=
      3 <=? length (py_split (pathsep h) (getenv (env_PSModulePath h) EmptyString)) in
    if is_powershell then "powershell.exe" else "cmd.exe"
  else basename (getenv (env_SHELL h) "/bin/sh").

(** The two names [create_defaults] puts into the templates on a host. *)
Definition platform_of (h : host) : platform := Platform (_shell_name h) (_os_name h).

(** *** Classes of characters *)

(** Printable ASCII: from the space to the tilde. *)
Definition printable (c : ascii) : bool := (32 <=? code c) && (code c <=? 126).

Definition no_brace (c : ascii) : bool := negb (ceq c "{") && negb (ceq c "}").

Definition no_slash (c : ascii) : bool := negb (ceq "/" c).

(** A directory part: empty, or ending with a slash. *)
Definition dir_part (d : string) : Prop :=
  d = EmptyString \/ exists d', d = d' +:+ "/".

Definition not_lf (c : ascii) : bool := negb (ceq LF c).

(** The characters of an argument that the builtin [echo] takes as options. *)
Definition echo_char (d : ascii) : bool :=
  ceq d "n" || ceq d "e" || ceq d "E" || ceq d "-".

Definition no_backtick (c : ascii) : bool := negb (ceq BACKTICK c).

(** *** File names *)

(** The bytes of a string in UTF-8, its characters being code points below
    256. *)
Fixpoint utf8_length (s : string) : nat :=
  match s with
  | EmptyString => 0
  | String c rest => (if code c <? 128 then 1 else 2) + utf8_length rest
  end.

Definition name_char (c : ascii) : bool := no_slash c && negb (code c =? 0).

(** The name of one file of a directory on a POSIX file system that tells
    upper case from lower case: not empty, no slash and no null character,
    at most 255 bytes, and neither of the two names of directories. *)
Definition file_name (f : string) : bool :=
  negb (is_empty f) && all_chars name_char f && (utf8_length f <=? 255)
  && negb (String.eqb f ".") && negb (String.eqb f "..").

(** A role name whose file lies in the storage directory under a name of
    its own. With a slash in it the path of the role leaves the directory or
    reaches the file of another role: the name ./Poet has the file of Poet,
    and a/b has a file in a directory a that need not exist. *)
Definition plain_role_name (n : string) : bool := file_name (n +:+ ".json").

(** * Facts *)

(** ** The definitions on small inputs *)

Example py_split_example :
  py_split "You are " "x You are A You are B" = ["x "; "A "; "B"].
Proof. reflexivity. Qed.

Example py_splitlines_example :
  py_splitlines ("ab" +:+ str1 CR +:+ str1 LF +:+ "c" +:+ str1 LF +:+ str1 LF +:+ "d")
  = ["ab"; "c"; EmptyString; "d"].
Proof. reflexivity. Qed.

Example get_role_name_example :
  get_role_name ("You are  Poet " +:+ str1 LF +:+ "Write verse.") = Ok (Some "Poet").
Proof. reflexivity. Qed.

Example get_role_name_without_space : get_role_name "So You areX" = Raise IndexError.
Proof. reflexivity. Qed.

Example get_role_name_other : get_role_name "Hello" = Ok None.
Proof. reflexivity. Qed.

Example format_braces_example :
  format "{{x}} is {a}" {["a" := "1"]} = Ok "{x} is 1".
Proof. vm_compute. reflexivity. Qed.

Example format_single_brace_example :
  format "a } b" {["a" := "1"]} = Raise ValueError.
Proof. vm_compute. reflexivity. Qed.

Example json_escape_example :
  json_escape ("a" +:+ str1 LF +:+ str1 "233" +:+ str1 DQUOTE)
  = "a" +:+ str1 BACKSLASH +:+ "n" +:+ str1 BACKSLASH +:+ "u00e9"
    +:+ str1 BACKSLASH +:+ str1 DQUOTE.
Proof. reflexivity. Qed.

Example json_loads_spaced_example :
  json_loads (" { " +:+ json_string "name" +:+ " :" +:+ json_string "A" +:+ " } ")
  = Some [("name", "A")].
Proof. reflexivity. Qed.

Example sed_range_example :
  sed bash_block_script (echo two_blocks)
  = "```bash" +:+ nl +:+ "foo" +:+ nl +:+ "```" +:+ nl
    +:+ "```bash" +:+ nl +:+ "bar" +:+ nl +:+ "```" +:+ nl.
Proof. vm_compute. reflexivity. Qed.

Example sed_trim_fenced_example :
  sed (trim_script AsWritten) (echo "``ls -l``") = "ls -l" +:+ nl
  /\ sed (trim_script AsEvaluated) (echo "``ls -l``") = str1 "001" +:+ nl
  /\ sed (trim_script AsWritten) (echo "   ls -l  ") = "ls -l" +:+ nl.
Proof. repeat split; vm_compute; reflexivity. Qed.

Example echo_option_example :
  echo "-n" = EmptyString /\ echo "-e" = nl /\ echo "-x" = "-x" +:+ nl.
Proof. repeat split. Qed.

(** ** Strings *)

Lemma app_cons (c : ascii) (s t : string) : String c s +:+ t = String c (s +:+ t).
Proof. reflexivity. Qed.

Lemma app_empty_l (s : string) : EmptyString +:+ s = s.
Proof. reflexivity. Qed.

Lemma app_empty_r (s : string) : s +:+ EmptyString = s.
Proof. induction s as [|c s IH]; [reflexivity|]. rewrite app_cons, IH. reflexivity. Qed.

Lemma app_assoc_str (a b c : string) : (a +:+ b) +:+ c = a +:+ (b +:+ c).
Proof.
  induction a as [|x a IH]; [reflexivity|].
  rewrite !app_cons, IH. reflexivity.
Qed.


Create Rewrite HintDb str.
#[export] Hint Rewrite app_cons app_empty_l app_empty_r : str.

Lemma rev_string_onto_app (s acc : string) :
  rev_string_onto s acc = rev_string s +:+ acc.
Proof.
  unfold rev_string. revert acc.
  induction s as [|c s IH]; intros acc; [reflexivity|].
  simpl. rewrite IH, (IH (String c EmptyString)), app_assoc_str. reflexivity.
Qed.

Lemma rev_string_cons (c : ascii) (s : string) :
  rev_string (String c s) = rev_string s +:+ str1 c.
Proof. unfold rev_string at 1. simpl. apply rev_string_onto_app. Qed.

Lemma rev_string_app (a b : string) :
  rev_string (a +:+ b) = rev_string b +:+ rev_string a.
Proof.
  induction a as [|c a IH].
  - rewrite app_empty_l. change (rev_string EmptyString) with EmptyString.
    rewrite app_empty_r. reflexivity.
  - rewrite app_cons, !rev_string_cons, IH, app_assoc_str. reflexivity.
Qed.

Lemma rev_string_involutive (s : string) : rev_string (rev_string s) = s.
Proof.
  induction s as [|c s IH]; [reflexivity|].
  rewrite rev_string_cons, rev_string_app, IH. reflexivity.
Qed.

Lemma starts_with_app (p s : string) : starts_with p (p +:+ s) = true.
Proof.
  induction p as [|c p IH]; [reflexivity|].
  rewrite app_cons. simpl. destruct (ascii_dec c c); [exact IH | congruence].
Qed.

Lemma ceq_refl (c : ascii) : ceq c c = true.
Proof. unfold ceq. destruct (ascii_dec c c); congruence. Qed.

Lemma ceq_true (a b : ascii) : ceq a b = true -> a = b.
Proof. unfold ceq. destruct (ascii_dec a b); congruence. Qed.

(** ** The JSON reader undoes the JSON writer *)

Lemma json_run_cons (st : jstate) (c : ascii) (s : string) :
  json_run st (String c s) =
  match json_step st c with Some st' => json_run st' s | None => None end.
Proof. reflexivity. Qed.

Lemma read_escaped_char_in_key d acc (c : ascii) (tail : string) :
  json_run (JInKey d acc Plain) (json_escape_char c +:+ tail)
  = json_run (JInKey d (String c acc) Plain) tail.
Proof. destruct c as [[] [] [] [] [] [] [] []]; reflexivity. Qed.

Lemma read_escaped_char_in_value d k acc (c : ascii) (tail : string) :
  json_run (JInValue d k acc Plain) (json_escape_char c +:+ tail)
  = json_run (JInValue d k (String c acc) Plain) tail.
Proof. destruct c as [[] [] [] [] [] [] [] []]; reflexivity. Qed.

Lemma read_escaped_in_key d (s acc tail : string) :
  json_run (JInKey d acc Plain) (json_escape s +:+ tail)
  = json_run (JInKey d (rev_string_onto s acc) Plain) tail.
Proof.
  revert acc. induction s as [|c s IH]; intros acc; [reflexivity|].
  simpl json_escape. rewrite app_assoc_str, read_escaped_char_in_key, IH.
  reflexivity.
Qed.

Lemma read_escaped_in_value d k (s acc tail : string) :
  json_run (JInValue d k acc Plain) (json_escape s +:+ tail)
  = json_run (JInValue d k (rev_string_onto s acc) Plain) tail.
Proof.
  revert acc. induction s as [|c s IH]; intros acc; [reflexivity|].
  simpl json_escape. rewrite app_assoc_str, read_escaped_char_in_value, IH.
  reflexivity.
Qed.

Lemma read_key d (s tail : string) :
  json_run (JInKey d EmptyString Plain) (json_escape s +:+ String DQUOTE tail)
  = json_run (JColon d s) tail.
Proof.
  rewrite read_escaped_in_key, json_run_cons. simpl json_step.
  fold (rev_string s). rewrite rev_string_involutive. reflexivity.
Qed.

Lemma read_value d k (s tail : string) :
  json_run (JInValue d k EmptyString Plain) (json_escape s +:+ String DQUOTE tail)
  = json_run (JCommaOrClose ((k, s) :: d)) tail.
Proof.
  rewrite read_escaped_in_value, json_run_cons. simpl json_step.
  fold (rev_string s). rewrite rev_string_involutive. reflexivity.
Qed.

Lemma json_string_app (s tail : string) :
  json_string s +:+ tail = String DQUOTE (json_escape s +:+ String DQUOTE tail).
Proof.
  unfold json_string, str1. rewrite app_cons, app_assoc_str. reflexivity.
Qed.

(** Reading back what [json.dumps] wrote for a dict of two strings gives
    the dict. *)
Lemma json_loads_dumps (k1 v1 k2 v2 : string) :
  json_loads (json_dumps [(k1, v1); (k2, v2)]) = Some [(k1, v1); (k2, v2)].
Proof.
  unfold json_loads, json_dumps. simpl map. simpl join. unfold json_item. simpl fst. simpl snd.
  rewrite !app_assoc_str, !json_string_app.
  autorewrite with str.
  simpl. rewrite read_key. simpl. rewrite read_value. simpl.
  rewrite read_key. simpl.
  rewrite read_value. reflexivity.
Qed.

(** ** Running the role store *)

Lemma format_role_template (n r : string) :
  format ROLE_TEMPLATE (<["name" := n]> (<["role" := r]> ∅)) = Ok (header n +:+ r).
Proof.
  unfold format, ROLE_TEMPLATE, header, str1. autorewrite with str. simpl.
  change (rev_string "eman") with "name". change (rev_string "elor") with "role".
  unfold get_field. simpl is_empty. simpl all_chars. cbv iota.
  rewrite lookup_insert_eq, lookup_insert_ne, lookup_insert_eq by discriminate.
  simpl. rewrite app_empty_r, app_assoc_str. reflexivity.
Qed.

(** What one call of [_save] does, case by case. *)
Lemma _save_eq (self : SystemRole) (w : world) :
  _save self w =
  let written :=
    <[_file_path self := json_dumps (__dict__ (wrapped self))]> (files w) in
  match files w !! _file_path self with
  | None => (Ok (wrapped self), World written (answers w))
  | Some _ =>
      match answers w with
      | true :: rest => (Ok (wrapped self), World written rest)
      | false :: rest => (Raise Abort, World (files w) rest)
      | [] => (Raise Abort, w)
      end
  end.
Proof.
  unfold _save, bind, _exists, path_exists, lift, write_text, ret, confirm.
  rewrite format_role_template.
  destruct (files w !! _file_path self) as [text|] eqn:E.
  - rewrite bool_decide_eq_true_2 by eauto.
    destruct (answers w) as [|[] rest]; reflexivity.
  - rewrite bool_decide_eq_false_2 by (intros [? ?]; discriminate).
    reflexivity.
Qed.

Lemma save_if_missing_eq (r : SystemRole) (w : world) :
  save_if_missing r w =
  match files w !! _file_path r with
  | None =>
      (Ok tt, World (<[_file_path r := json_dumps (__dict__ (wrapped r))]> (files w))
                    (answers w))
  | Some _ => (Ok tt, w)
  end.
Proof.
  unfold save_if_missing. unfold bind at 1. unfold _exists, path_exists.
  destruct (files w !! _file_path r) as [text|] eqn:E.
  - rewrite bool_decide_eq_true_2 by eauto. reflexivity.
  - rewrite bool_decide_eq_false_2 by (intros [? ?]; discriminate).
    unfold bind, ret. rewrite _save_eq, E. reflexivity.
Qed.

(** The loop of [create_defaults] returns, keeps every file it finds, asks
    nothing, and leaves a file for each role of its list. *)
Lemma forM_save_if_missing (roles : list SystemRole) (w : world) :
  exists w',
    forM_ roles save_if_missing w = (Ok tt, w')
    /\ answers w' = answers w
    /\ (forall path text, files w !! path = Some text -> files w' !! path = Some text)
    /\ (forall r, In r roles -> is_Some (files w' !! _file_path r))
    /\ ((forall r, In r roles -> is_Some (files w !! _file_path r)) -> w' = w).
Proof.
  revert w. induction roles as [|r roles IH]; intros w.
  - exists w. simpl. unfold ret. repeat split; auto. intros r [].
  - simpl forM_. unfold bind. rewrite save_if_missing_eq.
    destruct (files w !! _file_path r) as [text|] eqn:E.
    + destruct (IH w) as (w' & Hrun & Hans & Hkeep & Hall & Hsame).
      exists w'. rewrite Hrun. repeat split; auto.
      * intros r' [<-|Hin]; [eauto|auto].
      * intros Hpre. apply Hsame. intros r' Hin. apply Hpre. now right.
    + set (w1 := World _ _).
      destruct (IH w1) as (w' & Hrun & Hans & Hkeep & Hall & Hsame).
      exists w'. rewrite Hrun. repeat split; auto.
      * intros path text Hp. apply Hkeep. unfold w1. simpl.
        rewrite lookup_insert_ne; [exact Hp|]. intros <-. congruence.
      * intros r' [<-|Hin]; [|auto].
        apply mk_is_Some with (x := json_dumps (__dict__ (wrapped r))).
        apply Hkeep. unfold w1. simpl. apply lookup_insert_eq.
      * intros Hpre. destruct (Hpre r (or_introl eq_refl)) as [x Hx]. congruence.
Qed.

(** Every built-in template formats with the two platform variables. *)
Lemma default_roles_built (p : platform) (w : world) :
  mapM (fun '(n, t, v) => SystemRole_init n t v) (default_role_args p) w
  = (Ok (default_roles p), w).
Proof. destruct p as [sh os]. vm_compute. reflexivity. Qed.

Lemma default_templates_format (p : platform) :
  is_ok (format DEFAULT_ROLE (default_variables p)) = true
  /\ is_ok (format SHELL_ROLE (default_variables p)) = true
  /\ is_ok (format DESCRIBE_SHELL_ROLE (default_variables p)) = true
  /\ is_ok (format SHELL_COMMAND_FIXER_ROLE (default_variables p)) = true.
Proof. destruct p as [sh os]. vm_compute. auto. Qed.


Lemma get_eq (n : string) (w : world) :
  get n w =
  match files w !! (n +:+ ".json") with
  | Some text =>
      match json_loads text with
      | Some kwargs => SystemRole_from_kwargs kwargs w
      | None => (Raise OutsideModel, w)
      end
  | None =>
      (Raise (BadArgumentUsage
                ("Role " +:+ str1 DQUOTE +:+ n +:+ str1 DQUOTE +:+ " not found.")), w)
  end.
Proof.
  unfold get, bind, path_exists, read_text.
  destruct (files w !! (n +:+ ".json")) as [text|] eqn:Hfile.
  - rewrite bool_decide_eq_true_2 by eauto. simpl. rewrite Hfile.
    destruct (json_loads text); reflexivity.
  - rewrite bool_decide_eq_false_2 by (intros [? ?]; discriminate).
    reflexivity.
Qed.

(** [get] reads back a role that [_save] wrote. *)
Lemma get_saved (n : string) (r : SystemRole) (w : world) :
  files w !! (n +:+ ".json") = Some (json_dumps (__dict__ r)) ->
  get n w = (Ok r, w).
Proof.
  intros Hfile. rewrite get_eq, Hfile.
  unfold __dict__. rewrite json_loads_dumps.
  destruct r as [a b]. reflexivity.
Qed.



(** A role that the loop saves under a fresh file name is stored as
    [_save] writes it. *)
Lemma forM_save_if_missing_fresh (roles : list SystemRole) (w w' : world) (r : SystemRole) :
  forM_ roles save_if_missing w = (Ok tt, w') ->
  NoDup (map _file_path roles) ->
  In r roles ->
  files w !! _file_path r = None ->
  files w' !! _file_path r = Some (json_dumps (__dict__ (wrapped r))).
Proof.
  revert w. induction roles as [|r0 roles IH]; intros w Hrun Hnd Hin Hnone; [destruct Hin|].
  simpl forM_ in Hrun. unfold bind in Hrun. rewrite save_if_missing_eq in Hrun.
  simpl map in Hnd. apply NoDup_cons in Hnd as [Hnotin Hnd].
  destruct Hin as [->|Hin].
  - rewrite Hnone in Hrun.
    destruct (forM_save_if_missing roles
                (World (<[_file_path r := json_dumps (__dict__ (wrapped r))]> (files w))
                       (answers w)))
      as (w2 & Hrun2 & _ & Hkeep & _).
    rewrite Hrun2 in Hrun. injection Hrun as <-.
    apply Hkeep. simpl. apply lookup_insert_eq.
  - assert (Hne : _file_path r0 <> _file_path r).
    { intros Heq. apply Hnotin. rewrite Heq. apply list_elem_of_In.
      apply in_map. exact Hin. }
    destruct (files w !! _file_path r0) as [text|] eqn:E.
    + apply (IH w); auto.
    + apply (IH _ Hrun); auto. simpl. rewrite lookup_insert_ne; auto.
Qed.

(** ** The role selector *)

Lemma create_defaults_eq (p : platform) (w : world) :
  create_defaults p w = forM_ (default_roles p) save_if_missing w.
Proof.
  unfold create_defaults, create_roles, mkdir_storage. unfold bind at 1. unfold ret at 1.
  unfold bind at 1. rewrite default_roles_built. reflexivity.
Qed.

Lemma default_roles_paths (p : platform) :
  map _file_path (default_roles p)
  = map (fun k => value k +:+ ".json")
        [DEFAULT; SHELL; DESCRIBE_SHELL; CODE; SHELL_COMMAND_FIXER].
Proof. reflexivity. Qed.

Lemma default_roles_distinct (p : platform) : NoDup (map _file_path (default_roles p)).
Proof.
  rewrite default_roles_paths. apply NoDup_ListNoDup.
  repeat (constructor; [simpl; intuition discriminate|]). constructor.
Qed.

Lemma default_role_of_kind (p : platform) (k : DefaultRoles) :
  exists r, In r (default_roles p) /\ name r = value k.
Proof.
  pose (pick := fun i => nth i (default_roles p) (MkRole EmptyString EmptyString)).
  destruct k;
    [exists (pick 0) | exists (pick 1) | exists (pick 4) | exists (pick 2) | exists (pick 3)];
    simpl; tauto.
Qed.

(** C1. For all four flags [check_get] loads the role that the priority
    order shell, describe, code, fix, default selects. With shell and code
    both set it loads the role named Shell Command Generator, which after a
    first bootstrap is the record saved from the shell template, and not
    the one named Code Generator. *)
Theorem check_get_priority (shell describe_shell code shell_fix : bool) (w : world) :
  check_get shell describe_shell code shell_fix w
    = get (value (by_priority shell describe_shell code shell_fix)) w
  /\ check_get true describe_shell true shell_fix w = get "Shell Command Generator" w
  /\ value SHELL <> value CODE
  /\ (forall (p : platform) (w0 : world),
        files w0 !! "Shell Command Generator.json" = None ->
        fst (check_get true describe_shell true shell_fix (snd (create_defaults p w0)))
        = Ok (wrapped (MkRole "Shell Command Generator" (instantiated SHELL_ROLE p)))).
Proof.
  split; [|split; [|split]].
  - destruct shell, describe_shell, code, shell_fix; reflexivity.
  - reflexivity.
  - discriminate.
  - intros p w0 Hfresh. simpl check_get. change (value SHELL) with "Shell Command Generator".
    rewrite create_defaults_eq.
    destruct (forM_save_if_missing (default_roles p) w0) as (w1 & Hrun & _).
    rewrite Hrun. simpl snd.
    rewrite (get_saved _ (wrapped (MkRole "Shell Command Generator" (instantiated SHELL_ROLE p)))).
    + reflexivity.
    + apply (forM_save_if_missing_fresh (default_roles p) w0 w1
               (MkRole "Shell Command Generator" (instantiated SHELL_ROLE p)) Hrun).
      * apply default_roles_distinct.
      * simpl. tauto.
      * exact Hfresh.
Qed.

(** ** Bootstrap *)

(** C2. From any storage state [create_defaults] returns; afterwards each
    of the five built-in names has its file. A member whose file was
    missing has the record [_save] writes for the role built from its
    template, and [get_role] reads that record back; every file that was
    there holds the same bytes. No question was asked, and a second call
    changes nothing at all. *)
Theorem create_defaults_idempotent (p : platform) (w : world) :
  exists w1,
    create_defaults p w = (Ok tt, w1)
    /\ (forall k : DefaultRoles, is_Some (files w1 !! (value k +:+ ".json")))
    /\ (forall k : DefaultRoles,
          files w !! (value k +:+ ".json") = None ->
          exists r,
            In r (default_roles p)
            /\ name r = value k
            /\ files w1 !! (value k +:+ ".json") = Some (json_dumps (__dict__ (wrapped r)))
            /\ get_role k w1 = (Ok (wrapped r), w1))
    /\ (forall path text, files w !! path = Some text -> files w1 !! path = Some text)
    /\ answers w1 = answers w
    /\ create_defaults p w1 = (Ok tt, w1).
Proof.
  destruct (forM_save_if_missing (default_roles p) w)
    as (w1 & Hrun & Hans & Hkeep & Hall & _).
  exists w1. rewrite !create_defaults_eq.
  split; [exact Hrun|]. split; [|split; [|split; [exact Hkeep|split; [exact Hans|]]]].
  - intros k. destruct (default_role_of_kind p k) as (r & Hin & Hname).
    specialize (Hall r Hin). unfold _file_path in Hall. rewrite Hname in Hall. exact Hall.
  - intros k Hfresh. destruct (default_role_of_kind p k) as (r & Hin & Hname).
    assert (Hfile : files w1 !! (value k +:+ ".json")
                    = Some (json_dumps (__dict__ (wrapped r)))).
    { rewrite <- Hname.
      apply (forM_save_if_missing_fresh (default_roles p) w w1 r Hrun).
      - apply default_roles_distinct.
      - exact Hin.
      - unfold _file_path. rewrite Hname. exact Hfresh. }
    exists r. split; [exact Hin|]. split; [exact Hname|]. split; [exact Hfile|].
    unfold get_role. apply get_saved. exact Hfile.
  - destruct (forM_save_if_missing (default_roles p) w1)
      as (w2 & Hrun2 & _ & _ & _ & Hsame).
    rewrite Hrun2. rewrite (Hsame Hall). reflexivity.
Qed.

(** ** Role names read back from role texts *)

Lemma starts_with_app_both (q p s : string) :
  starts_with p s = true -> starts_with (q +:+ p) (q +:+ s) = true.
Proof.
  intros H. induction q as [|c q IH]; [exact H|].
  rewrite !app_cons. simpl. destruct (ascii_dec c c); [exact IH | congruence].
Qed.

Lemma starts_with_header (n body : string) :
  starts_with (header n) (header n +:+ body) = true.
Proof. apply starts_with_app. Qed.

(** C3. A built-in role that [_save] has written is read back by [get] as
    it was saved; its role text begins with the header line, and
    [get_role_name] applied to that first line, or to the whole text,
    returns the name of the record. *)
Theorem builtin_role_name_round_trip (p : platform) (r saved : SystemRole) (w w' : world) :
  In r (default_roles p) ->
  _save r w = (Ok saved, w') ->
  files w' !! _file_path r = Some (json_dumps (__dict__ saved))
  /\ get (name r) w' = (Ok saved, w')
  /\ starts_with (header (name saved)) (role saved) = true
  /\ (exists rest, py_splitlines (role saved) = ("You are " +:+ name saved) :: rest)
  /\ get_role_name ("You are " +:+ name saved) = Ok (Some (name saved))
  /\ get_role_name (role saved) = Ok (Some (name saved)).
Proof.
  intros Hin Hsave.
  assert (Hsaved : saved = wrapped r
                   /\ files w' !! _file_path r = Some (json_dumps (__dict__ saved))).
  { rewrite _save_eq in Hsave. cbv zeta in Hsave.
    destruct (files w !! _file_path r).
    - destruct (answers w) as [|[] rest]; try discriminate.
      injection Hsave as <- <-. split; [reflexivity|]. simpl. apply lookup_insert_eq.
    - injection Hsave as <- <-. split; [reflexivity|]. simpl. apply lookup_insert_eq. }
  destruct Hsaved as [-> Hfile].
  split; [exact Hfile|]. split; [apply get_saved; exact Hfile|].
  split; [apply starts_with_header|].
  simpl in Hin.
  destruct Hin as [<-|[<-|[<-|[<-|[<-|[]]]]]]; unfold wrapped; simpl name; simpl role;
    (split; [eexists; reflexivity|]); split; reflexivity.
Qed.

Lemma builtin_role_name_round_trip_witness :
  get_role_name
    (role (wrapped (MkRole "Shell Command Fixer"
                      (instantiated SHELL_COMMAND_FIXER_ROLE (Platform "zsh" "Darwin/MacOS 14.5")))))
  = Ok (Some "Shell Command Fixer").
Proof.
  pose (p := Platform "zsh" "Darwin/MacOS 14.5").
  pose (r := MkRole "Shell Command Fixer" (instantiated SHELL_COMMAND_FIXER_ROLE p)).
  pose (w := World ∅ [false]).
  refine (proj2 (proj2 (proj2 (proj2 (proj2
    (builtin_role_name_round_trip p r (wrapped r) w (snd (_save r w)) _ _)))))).
  - simpl. tauto.
  - vm_compute. reflexivity.
Defined.

(** ** Overwriting needs a yes *)

(** C4. When the file of a role exists and the answer to the overwrite
    question is no, or the input has ended, [_save] raises [Abort] and every
    file, the one of the role among them, holds what it held. *)
Theorem save_declined_leaves_file (self : SystemRole) (w : world) (text : string) :
  files w !! _file_path self = Some text ->
  hd false (answers w) = false ->
  exists w',
    _save self w = (Raise Abort, w')
    /\ files w' = files w
    /\ files w' !! _file_path self = Some text.
Proof.
  intros Hfile Hno. rewrite _save_eq, Hfile. cbv zeta.
  destruct (answers w) as [|[] rest]; simpl in Hno; try discriminate.
  - exists w. auto.
  - exists (World (files w) rest). auto.
Qed.

Lemma save_declined_leaves_file_witness :
  exists w',
    _save (MkRole "ShellGPT" "Answer in one word.")
          (World {["ShellGPT.json" := "{}"]} [false; true]) = (Raise Abort, w')
    /\ files w' = {["ShellGPT.json" := "{}"]}
    /\ files w' !! "ShellGPT.json" = Some "{}".
Proof.
  refine (save_declined_leaves_file (MkRole "ShellGPT" "Answer in one word.")
            (World {["ShellGPT.json" := "{}"]} [false; true]) "{}" _ _).
  - vm_compute. reflexivity.
  - reflexivity.
Defined.

(** ** Saving what was loaded *)



(** ** Formatting a template *)

Lemma result_map_app (out : string) (r : result string) (c : ascii) :
  result_map (String.app (String c out)) r = result_map (String c) (result_map (String.app out) r).
Proof. destruct r; reflexivity. Qed.

(** Text that formats well formats the same way in front of more text. *)
Lemma format_from_app (kw : gmap string string) (len : nat) :
  forall (field : option string) (pre out s : string),
    String.length pre <= len ->
    format_from kw field pre = Ok out ->
    format_from kw field (pre +:+ s) = result_map (String.app out) (format_from kw None s).
Proof.
  induction len as [|len IH]; intros field pre out s Hlen Hpre.
  - destruct pre; [|simpl in Hlen; lia].
    destruct field; [discriminate|]. injection Hpre as <-.
    rewrite app_empty_l. destruct (format_from kw None s); reflexivity.
  - destruct pre as [|c pre].
    { destruct field; [discriminate|]. injection Hpre as <-.
      rewrite app_empty_l. destruct (format_from kw None s); reflexivity. }
    simpl in Hlen. rewrite app_cons.
    destruct field as [acc|]; simpl in Hpre |- *.
    + destruct (ceq c "}").
      * destruct (get_field kw (rev_string acc)) as [v|e]; [|discriminate].
        simpl in Hpre |- *.
        destruct (format_from kw None pre) as [o|e] eqn:E; [|discriminate].
        injection Hpre as <-.
        rewrite (IH None pre o s) by (auto; lia).
        destruct (format_from kw None s); simpl; [|reflexivity].
        rewrite app_assoc_str. reflexivity.
      * destruct (field_special c); [discriminate|].
        apply IH; [lia|exact Hpre].
    + destruct (ceq c "{").
      * destruct pre as [|d pre]; [discriminate|]. rewrite app_cons.
        destruct (ceq d "{").
        -- destruct (format_from kw None pre) as [o|e] eqn:E; [|discriminate].
           injection Hpre as <-. simpl in Hlen.
           rewrite (IH None pre o s) by (auto; lia).
           destruct (format_from kw None s); reflexivity.
        -- rewrite <- app_cons. apply IH; [simpl in *; lia|exact Hpre].
      * destruct (ceq c "}").
        -- destruct pre as [|d pre]; [discriminate|]. rewrite app_cons.
           destruct (ceq d "}"); [|discriminate].
           destruct (format_from kw None pre) as [o|e] eqn:E; [|discriminate].
           injection Hpre as <-. simpl in Hlen.
           rewrite (IH None pre o s) by (auto; lia).
           destruct (format_from kw None s); reflexivity.
        -- destruct (format_from kw None pre) as [o|e] eqn:E; [|discriminate].
           injection Hpre as <-.
           rewrite (IH None pre o s) by (auto; lia).
           destruct (format_from kw None s); reflexivity.
Qed.

(** Inside a field, plain characters are gathered up to the closing brace. *)
Lemma format_from_field (kw : gmap string string) (k acc post : string) :
  all_chars (fun c => negb (field_special c) && negb (ceq c "}")) k = true ->
  format_from kw (Some acc) (k +:+ String "}" post)
  = result_bind (get_field kw (rev_string acc +:+ k))
      (fun v => result_map (String.app v) (format_from kw None post)).
Proof.
  revert acc. induction k as [|c k IH]; intros acc Hk.
  - rewrite app_empty_l, app_empty_r. reflexivity.
  - simpl in Hk. apply andb_prop in Hk as [Hc Hk]. apply andb_prop in Hc as [Hs Hb].
    rewrite app_cons. simpl.
    destruct (ceq c "}"); [discriminate|]. destruct (field_special c); [discriminate|].
    rewrite IH by exact Hk. rewrite rev_string_cons, app_assoc_str. reflexivity.
Qed.

Lemma get_field_missing (kw : gmap string string) (k : string) :
  plain_field k = true -> kw !! k = None -> get_field kw k = Raise (KeyError k).
Proof.
  unfold plain_field, get_field. intros Hk Hnone.
  apply andb_prop in Hk as [Hk _]. apply andb_prop in Hk as [He Hd].
  destruct (is_empty k); [discriminate|]. destruct (all_chars is_digit k); [discriminate|].
  rewrite Hnone. reflexivity.
Qed.

(** A template with a field whose keyword is missing raises [KeyError]. *)
Lemma format_missing_keyword (kw : gmap string string) (pre k post out : string) :
  plain_field k = true ->
  kw !! k = None ->
  format pre kw = Ok out ->
  format (pre +:+ "{" +:+ k +:+ "}" +:+ post) kw = Raise (KeyError k).
Proof.
  intros Hk Hnone Hpre. unfold format in *.
  rewrite (format_from_app kw (String.length pre) None pre out) by auto.
  assert (Hplain := Hk). unfold plain_field in Hk.
  apply andb_prop in Hk as [Hk Hall]. apply andb_prop in Hk as [He _].
  destruct k as [|c k]; [discriminate|].
  autorewrite with str. simpl format_from.
  simpl in Hall. apply andb_prop in Hall as [Hc Hall]. apply andb_prop in Hc as [Hs Hb].
  assert (Hbrace : ceq c "{" = false).
  { unfold field_special in Hs. destruct (ceq c "{"); [discriminate|reflexivity]. }
  rewrite Hbrace.
  destruct (ceq c "}"); [discriminate|]. destruct (field_special c); [discriminate|].
  rewrite format_from_field by exact Hall.
  change (rev_string (String c EmptyString) +:+ k) with (String c k).
  rewrite (get_field_missing kw (String c k) Hplain Hnone). reflexivity.
Qed.

Lemma mapM_raises {A B} (f : A -> M B) (l rest : list A) (x : A) (ys : list B)
    (e : exn) (w w1 w2 : world) :
  mapM f l w = (Ok ys, w1) ->
  f x w1 = (Raise e, w2) ->
  mapM f (l ++ x :: rest) w = (Raise e, w2).
Proof.
  revert w ys. induction l as [|a l IH]; intros w ys Hl Hx.
  - injection Hl as <- <-. simpl. unfold bind. rewrite Hx. reflexivity.
  - simpl in Hl |- *. unfold bind in Hl |- *.
    destruct (f a w) as [[b|e'] wa]; [|discriminate].
    destruct (mapM f l wa) as [[bs|e'] wb] eqn:E; [|discriminate].
    injection Hl as <- <-.
    rewrite (IH wa bs E Hx). reflexivity.
Qed.

(** With an empty mapping the template is not formatted: the field stays in
    the role text and nothing is raised. *)
Lemma init_with_empty_mapping_keeps_field :
  (∅ : gmap string string) !! "shell" = None
  /\ plain_field "shell" = true
  /\ format "Use the " (∅ : gmap string string) = Ok "Use the "
  /\ SystemRole_init "Helper" ("Use the " +:+ "{" +:+ "shell" +:+ "}" +:+ " shell.")
       (Some ∅) (World ∅ [])
     = (Ok (MkRole "Helper" "Use the {shell} shell."), World ∅ []).
Proof. repeat split. Qed.

(** C9, amended. When the mapping passed to the constructor is not empty, a
    template with a field whose keyword the mapping lacks raises [KeyError],
    and the error leaves [create_defaults]'s body before any role is
    saved. With no mapping, or an empty one, the template is taken as it is,
    fields included; so the Code Generator template is. *)
Theorem init_missing_variable (n pre k post out : string) (vars : gmap string string)
    (w : world) :
  vars <> ∅ ->
  vars !! k = None ->
  plain_field k = true ->
  format pre vars = Ok out ->
  let template := pre +:+ "{" +:+ k +:+ "}" +:+ post in
  SystemRole_init n template (Some vars) w = (Raise (KeyError k), w)
  /\ (forall p : platform,
        create_roles (default_role_args p ++ [(n, template, Some vars)]) w
        = (Raise (KeyError k), w))
  /\ SystemRole_init n template None w = (Ok (MkRole n template), w)
  /\ SystemRole_init n template (Some ∅) w = (Ok (MkRole n template), w)
  /\ SystemRole_init "Code Generator" CODE_ROLE None w
     = (Ok (MkRole "Code Generator" CODE_ROLE), w).
Proof.
  intros Hvars Hnone Hk Hpre template.
  assert (Hinit : SystemRole_init n template (Some vars) w = (Raise (KeyError k), w)).
  { unfold SystemRole_init, mkdir_storage, bind, ret, lift.
    destruct (decide (vars = ∅)) as [Heq|_]; [contradiction|].
    unfold template. rewrite (format_missing_keyword vars pre k post out Hk Hnone Hpre).
    reflexivity. }
  split; [exact Hinit|]. split; [|repeat split].
  intros p. unfold create_roles, bind.
  rewrite (mapM_raises _ (default_role_args p) [] (n, template, Some vars)
             (default_roles p) (KeyError k) w w w (default_roles_built p w) Hinit).
  reflexivity.
Qed.

Lemma init_missing_variable_witness :
  SystemRole_init "Helper" ("Use the " +:+ "{" +:+ "shell" +:+ "}" +:+ " shell.")
    (Some {["os" := "Linux"]}) (World ∅ [])
  = (Raise (KeyError "shell"), World ∅ []).
Proof.
  refine (proj1 (init_missing_variable "Helper" "Use the " "shell" " shell." "Use the "
                   {["os" := "Linux"]} (World ∅ []) _ _ _ _)).
  - apply map_non_empty_singleton.
  - vm_compute. reflexivity.
  - vm_compute. reflexivity.
  - vm_compute. reflexivity.
Defined.

(** ** What a match consumes *)

Lemma all_chars_app (P : ascii -> bool) (a b : string) :
  all_chars P (a +:+ b) = all_chars P a && all_chars P b.
Proof.
  induction a as [|c a IH]; [reflexivity|].
  rewrite app_cons. simpl. rewrite IH, andb_assoc. reflexivity.
Qed.

Lemma ahead_refl (P : ascii -> bool) (st : mstate) : ahead P st st.
Proof. exists EmptyString. split; reflexivity. Qed.

Lemma ahead_trans (P : ascii -> bool) (a b c : mstate) :
  ahead P a b -> ahead P b c -> ahead P a c.
Proof.
  intros (w1 & H1 & A1) (w2 & H2 & A2). exists (w1 +:+ w2).
  rewrite H1, H2, app_assoc_str, all_chars_app, A1, A2. split; reflexivity.
Qed.

Lemma one_char_in (p : ascii -> bool) (st st' : mstate) :
  In st' (one_char p st) ->
  exists d, rest st = String d (rest st') /\ p d = true.
Proof.
  unfold one_char. destruct (rest st) as [|d t]; [intros []|].
  destruct (p d) eqn:E; [|intros []].
  intros [<-|[]]. exists d. split; [reflexivity|exact E].
Qed.

Lemma one_char_ahead (P p : ascii -> bool) (st st' : mstate) :
  (forall d, p d = true -> P d = true) ->
  In st' (one_char p st) -> ahead P st st'.
Proof.
  intros HP Hin. destruct (one_char_in p st st' Hin) as (d & Hrest & Hd).
  exists (str1 d). split; [rewrite Hrest; reflexivity|].
  simpl. rewrite (HP d Hd). reflexivity.
Qed.

Lemma star_from_ahead (P : ascii -> bool) (step : mstate -> list mstate) :
  (forall st st', In st' (step st) -> ahead P st st') ->
  forall fuel st st', In st' (star_from step fuel st) -> ahead P st st'.
Proof.
  intros Hstep. induction fuel as [|fuel IH]; intros st st' Hin; simpl in Hin.
  - destruct Hin as [<-|[]]. apply ahead_refl.
  - apply in_app_or in Hin as [Hin|[<-|[]]]; [|apply ahead_refl].
    apply in_flat_map in Hin as (mid & Hmid & Hin).
    apply filter_In in Hmid as [Hmid _].
    eapply ahead_trans; [apply Hstep; exact Hmid|apply IH; exact Hin].
Qed.

(** A match consumes only what its pattern allows. *)
Lemma rmatch_ahead (P : ascii -> bool) (r : regex) :
  consumes P r -> forall st st', In st' (rmatch r st) -> ahead P st st'.
Proof.
  induction r as [| c | | c | | | | r1 IH1 r2 IH2 | r IH | r IH | r IH | r IH];
    simpl; intros Hc st st' Hin.
  - destruct Hin as [<-|[]]. apply ahead_refl.
  - apply (one_char_ahead P (ceq c)); [|exact Hin].
    intros d Hd. apply ceq_true in Hd. subst d. exact Hc.
  - apply (one_char_ahead P (fun _ => true)); [|exact Hin]. intros d _. apply Hc.
  - apply (one_char_ahead P (fun d => negb (ceq c d))); [|exact Hin].
    intros d Hd. apply Hc. apply negb_true_iff. exact Hd.
  - apply (one_char_ahead P is_space); [exact Hc|exact Hin].
  - destruct (at_start st); [|destruct Hin]. destruct Hin as [<-|[]]. apply ahead_refl.
  - destruct (is_empty (rest st)); [|destruct Hin]. destruct Hin as [<-|[]]. apply ahead_refl.
  - destruct Hc as [Hc1 Hc2]. apply in_flat_map in Hin as (mid & Hmid & Hin).
    eapply ahead_trans; [apply IH1|apply IH2]; eauto.
  - eapply star_from_ahead; [|exact Hin]. intros a b. apply IH. exact Hc.
  - apply in_flat_map in Hin as (mid & Hmid & Hin).
    eapply ahead_trans; [apply IH; eauto|].
    eapply star_from_ahead; [|exact Hin]. intros a b. apply IH. exact Hc.
  - apply in_app_or in Hin as [Hin|[<-|[]]]; [apply IH; auto|apply ahead_refl].
  - apply in_map_iff in Hin as (mid & <- & Hmid).
    destruct (IH Hc st mid Hmid) as (w & Hw & Hall). exists w. split; assumption.
Qed.

Lemma lit_match (s : string) (st st' : mstate) :
  In st' (rmatch (lit s) st) -> rest st = s +:+ rest st'.
Proof.
  revert st. induction s as [|c s IH]; intros st Hin; simpl in Hin.
  - destruct Hin as [<-|[]]. reflexivity.
  - apply in_flat_map in Hin as (mid & Hmid & Hin).
    apply one_char_in in Hmid as (d & Hrest & Hd). apply ceq_true in Hd. subst d.
    rewrite Hrest, (IH mid Hin). reflexivity.
Qed.

Lemma longest_in (l : list mstate) (m : mstate) : longest l = Some m -> In m l.
Proof.
  revert m. induction l as [|a l IH]; intros m H; simpl in H; [discriminate|].
  destruct (longest l) as [m'|].
  - destruct (String.length (rest m') <? String.length (rest a)).
    + injection H as <-. right. apply IH. reflexivity.
    + injection H as <-. left. reflexivity.
  - injection H as <-. left. reflexivity.
Qed.

(** A pattern found in a line matches at some place of the line. *)
Lemma search_from_found (re : regex) (s : string) :
  forall (start : bool) (before x : string) (m : mstate),
    search_from re start before s = Some (x, m) ->
    exists pre suf b,
      rev_string before +:+ s = pre +:+ suf /\ In m (rmatch re (MState b suf None)).
Proof.
  induction s as [|c s IH]; intros start before x m H; simpl in H.
  - destruct (longest (rmatch re (MState start EmptyString None))) as [m'|] eqn:E;
      [|discriminate].
    injection H as _ <-. exists (rev_string before), EmptyString, start.
    split; [reflexivity|]. apply longest_in. exact E.
  - destruct (longest (rmatch re (MState start (String c s) None))) as [m'|] eqn:E.
    + injection H as _ <-. exists (rev_string before), (String c s), start.
      split; [reflexivity|]. apply longest_in. exact E.
    + destruct (IH false (String c before) x m H) as (pre & suf & b & Heq & Hin).
      exists pre, suf, b. split; [|exact Hin].
      rewrite <- Heq, rev_string_cons, app_assoc_str. reflexivity.
Qed.

(** ** Texts without a fence tagged bash *)

Lemma opens_bash_block_intro (before tail : string) :
  contains (str1 BACKTICK) tail = false ->
  opens_bash_block (before +:+ str1 BACKTICK +:+ "bash" +:+ tail) = true.
Proof.
  intros Htail. induction before as [|c before IH].
  - rewrite app_empty_l. destruct tail; simpl in *; rewrite ?Htail; reflexivity.
  - rewrite app_cons. simpl opens_bash_block. rewrite IH. apply orb_true_r.
Qed.

Lemma all_same_snoc (c : ascii) (w : string) :
  all_chars (ceq c) w = true -> String c w = w +:+ str1 c.
Proof.
  induction w as [|d w IH]; [reflexivity|].
  simpl. intros H. apply andb_prop in H as [Hd Hw]. apply ceq_true in Hd. subst d.
  rewrite app_cons, <- (IH Hw). reflexivity.
Qed.

Lemma no_char_not_contained (c : ascii) (w : string) :
  all_chars (fun d => negb (ceq c d)) w = true -> contains (str1 c) w = false.
Proof.
  induction w as [|d w IH]; [reflexivity|].
  simpl. intros H. apply andb_prop in H as [Hd Hw].
  unfold ceq in Hd. destruct (ascii_dec c d); [discriminate|].
  simpl. exact (IH Hw).
Qed.

Lemma bash_fence_tail_consumes :
  consumes (fun d => negb (ceq BACKTICK d))
    (seq_of [Star (NotChr BACKTICK); Optional (Group (lit " -c")); Eol]).
Proof.
  simpl. repeat split; try reflexivity.
  intros d Hd. rewrite Hd. reflexivity.
Qed.

(** The opening pattern of the first [sed] matches only lines that open a
    block tagged bash. *)
Lemma bash_fence_sound (line : string) :
  line_matches bash_fence line = true -> opens_bash_block line = true.
Proof.
  unfold line_matches, regex_search.
  destruct (search_from bash_fence true EmptyString line) as [[x m]|] eqn:E; [|discriminate].
  intros _. apply search_from_found in E as (pre & suf & b & Hline & Hin).
  change (rev_string EmptyString +:+ line) with line in Hline.
  change bash_fence with
    (Seq (AtLeastOne (Chr BACKTICK))
       (Seq (lit "bash")
          (seq_of [Star (NotChr BACKTICK); Optional (Group (lit " -c")); Eol]))) in Hin.
  simpl rmatch in Hin.
  apply in_flat_map in Hin as (st1 & Hticks & Hin).
  apply in_flat_map in Hin as (st2 & Htag & Hin).
  (* the backticks *)
  apply in_flat_map in Hticks as (st0 & Hfirst & Hmore).
  apply one_char_in in Hfirst as (d & Hsuf & Hd). apply ceq_true in Hd. subst d.
  simpl rest in Hsuf.
  apply (star_from_ahead (ceq BACKTICK) (one_char (ceq BACKTICK))) in Hmore as (w & Hw & Hall).
  2:{ intros a a' Ha. apply (one_char_ahead _ (ceq BACKTICK)); auto. }
  (* the tag *)
  apply (lit_match "bash" st1 st2) in Htag.
  (* the rest of the line *)
  assert (Hend : rest m = EmptyString).
  { simpl in Hin. apply in_flat_map in Hin as (a & _ & Hin).
    apply in_flat_map in Hin as (a' & _ & Hin).
    destruct (rest a') eqn:Ea; simpl in Hin; [|destruct Hin].
    destruct Hin as [<-|[]]. exact Ea. }
  apply (rmatch_ahead _ _ bash_fence_tail_consumes) in Hin as (tail & Htail & Hno).
  rewrite Hend, app_empty_r in Htail.
  assert (Hshape : line = (pre +:+ w) +:+ str1 BACKTICK +:+ "bash" +:+ tail).
  { rewrite Hline, Hsuf, Hw, Htag, Htail.
    rewrite <- app_cons, (all_same_snoc BACKTICK w Hall).
    rewrite !app_assoc_str. reflexivity. }
  rewrite Hshape. apply opens_bash_block_intro.
  apply no_char_not_contained. exact Hno.
Qed.

(** A quiet script that only prints a range prints nothing when no line
    opens the range. *)
Lemma range_never_opened (first last : regex) (input : list string) :
  (forall l, In l input -> line_matches first l = false) ->
  forall active, hd false active = false ->
    sed_lines (SedScript true [RangePrint first last]) active input = [].
Proof.
  induction input as [|l input IH]; intros Hnone active Hact; [reflexivity|].
  simpl. rewrite Hact, (Hnone l) by (left; reflexivity). simpl.
  apply IH; [|reflexivity]. intros l' Hl'. apply Hnone. right. exact Hl'.
Qed.

Lemma lines_from_final_lf (s cur l : string) :
  In l (lines_from cur (s +:+ str1 LF)) -> l = EmptyString \/ In l (lines_from cur s).
Proof.
  revert cur. induction s as [|c s IH]; intros cur Hin.
  - rewrite app_empty_l in Hin. simpl in Hin. destruct Hin as [<-|[]].
    simpl. destruct cur; [left; reflexivity|right; left; reflexivity].
  - rewrite app_cons in Hin. simpl in Hin |- *.
    destruct (ceq c LF).
    + destruct Hin as [<-|Hin]; [right; left; reflexivity|].
      destruct (IH _ Hin) as [->|H]; [left; reflexivity|right; right; exact H].
    + apply IH. exact Hin.
Qed.

(** The lines that [echo] writes are the lines of its argument, and
    possibly an empty one. *)
Lemma lines_of_echo (text l : string) :
  In l (lines_of (echo text)) -> l = EmptyString \/ In l (lines_of text).
Proof.
  unfold echo. destruct (echo_option text).
  - destruct (contains "n" text); simpl; [intros []|intros [<-|[]]; left; reflexivity].
  - apply lines_from_final_lf.
Qed.

Lemma no_fence_no_output (text : string) :
  has_bash_fence text = false -> sed bash_block_script (echo text) = EmptyString.
Proof.
  intros Hno. unfold sed, bash_block_script.
  rewrite range_never_opened; [reflexivity| |reflexivity].
  intros l Hl. destruct (line_matches bash_fence l) eqn:E; [|reflexivity].
  exfalso. apply lines_of_echo in Hl as [->|Hl]; [discriminate E|].
  assert (Hyes : has_bash_fence text = true).
  { apply existsb_exists. exists l. split; [exact Hl|apply bash_fence_sound; exact E]. }
  congruence.
Qed.

(** ** The opening pattern finds every line that opens a block *)

Lemma star_from_self (step : mstate -> list mstate) (fuel : nat) (st : mstate) :
  In st (star_from step fuel st).
Proof. destruct fuel; simpl; [left; reflexivity|]. apply in_or_app. right. left. reflexivity. Qed.

Lemma star_from_all (p : ascii -> bool) (w t : string) :
  all_chars p w = true ->
  forall fuel st, String.length w <= fuel -> rest st = w +:+ t ->
    exists st', In st' (star_from (one_char p) fuel st) /\ rest st' = t.
Proof.
  induction w as [|c w IH]; intros Hall fuel st Hfuel Hrest.
  - exists st. split; [apply star_from_self|exact Hrest].
  - simpl in Hall. apply andb_prop in Hall as [Hc Hw].
    destruct fuel as [|fuel]; [simpl in Hfuel; lia|]. simpl in Hfuel.
    rewrite app_cons in Hrest.
    destruct (IH Hw fuel (MState false (w +:+ t) (group1 st))) as (st' & Hin & Hst');
      [lia|reflexivity|].
    exists st'. split; [|exact Hst'].
    simpl. apply in_or_app. left. apply in_flat_map.
    exists (MState false (w +:+ t) (group1 st)). split; [|exact Hin].
    unfold one_char. rewrite Hrest, Hc. simpl. unfold progress. simpl.
    rewrite Hrest. simpl.
    destruct (String.length (w +:+ t) <? S (String.length (w +:+ t))) eqn:E.
    + left. reflexivity.
    + apply Nat.ltb_ge in E. lia.
Qed.

Lemma lit_match_intro (s t : string) :
  forall st, rest st = s +:+ t -> exists st', In st' (rmatch (lit s) st) /\ rest st' = t.
Proof.
  induction s as [|c s IH]; intros st Hrest.
  - exists st. split; [left; reflexivity|exact Hrest].
  - rewrite app_cons in Hrest.
    destruct (IH (MState false (s +:+ t) (group1 st)) eq_refl) as (st' & Hin & Hst').
    exists st'. split; [|exact Hst'].
    simpl. apply in_flat_map. exists (MState false (s +:+ t) (group1 st)).
    split; [|exact Hin]. unfold one_char. rewrite Hrest, ceq_refl. left. reflexivity.
Qed.

Lemma not_contained_no_char (c : ascii) (w : string) :
  contains (str1 c) w = false -> all_chars (fun d => negb (ceq c d)) w = true.
Proof.
  induction w as [|d w IH]; [reflexivity|].
  simpl. unfold ceq. destruct (ascii_dec c d); [discriminate|].
  simpl. exact IH.
Qed.

Lemma rmatch_seq_intro (r1 r2 : regex) (st mid st' : mstate) :
  In mid (rmatch r1 st) -> In st' (rmatch r2 mid) -> In st' (rmatch (Seq r1 r2) st).
Proof. intros H1 H2. apply in_flat_map. exists mid. split; assumption. Qed.

(** The opening pattern matches where a backtick and the tag stand, when no
    backtick follows. *)
Lemma bash_fence_matches_here (b : bool) (tail : string) :
  contains (str1 BACKTICK) tail = false ->
  rmatch bash_fence (MState b ("`bash" +:+ tail) None) <> [].
Proof.
  intros Htail.
  pose (st1 := MState false ("bash" +:+ tail) None).
  destruct (lit_match_intro "bash" tail st1 eq_refl) as (st2 & Htag & Hst2).
  destruct (star_from_all (fun d => negb (ceq BACKTICK d)) tail EmptyString
              (not_contained_no_char _ _ Htail) (String.length (rest st2)) st2)
    as (st3 & Hstar & Hst3).
  { rewrite Hst2. lia. }
  { rewrite Hst2, app_empty_r. reflexivity. }
  assert (Hin : In st3 (rmatch bash_fence (MState b ("`bash" +:+ tail) None))).
  { change bash_fence with
      (Seq (AtLeastOne (Chr BACKTICK))
         (Seq (lit "bash")
            (Seq (Star (NotChr BACKTICK)) (Seq (Optional (Group (lit " -c"))) Eol)))).
    apply (rmatch_seq_intro _ _ _ st1).
    { apply in_flat_map. exists st1. split; [left; reflexivity|apply star_from_self]. }
    apply (rmatch_seq_intro _ _ _ st2); [exact Htag|].
    apply (rmatch_seq_intro _ _ _ st3); [exact Hstar|].
    apply (rmatch_seq_intro _ _ _ st3).
    - apply in_or_app. right. left. reflexivity.
    - change (rmatch Eol st3) with (if is_empty (rest st3) then [st3] else []).
      rewrite Hst3. left. reflexivity. }
  intros Hnil. rewrite Hnil in Hin. destruct Hin.
Qed.

Lemma longest_some (l : list mstate) : l <> [] -> longest l <> None.
Proof.
  destruct l as [|a l]; [congruence|]. intros _. simpl.
  destruct (longest l) as [m|]; [|discriminate].
  destruct (String.length (rest m) <? String.length (rest a)); discriminate.
Qed.

Lemma search_from_complete (re : regex) (pre suf : string) :
  (forall b, rmatch re (MState b suf None) <> []) ->
  forall start before, search_from re start before (pre +:+ suf) <> None.
Proof.
  intros Hhere. induction pre as [|c pre IH]; intros start before.
  - rewrite app_empty_l.
    assert (Hl := longest_some _ (Hhere start)).
    destruct suf; simpl; destruct (longest _); congruence.
  - rewrite app_cons. simpl.
    destruct (longest _); [discriminate|]. apply IH.
Qed.

Lemma starts_with_split (p s : string) :
  starts_with p s = true -> s = p +:+ drop_chars (String.length p) s.
Proof.
  revert s. induction p as [|a p IH]; intros s H; [destruct s; reflexivity|].
  destruct s as [|b s]; [discriminate|]. simpl in H.
  destruct (ascii_dec a b); [|discriminate]. subst b.
  rewrite app_cons. simpl. f_equal. apply IH. exact H.
Qed.

Lemma opens_bash_block_elim (line : string) :
  opens_bash_block line = true ->
  exists before tail,
    line = before +:+ "`bash" +:+ tail /\ contains (str1 BACKTICK) tail = false.
Proof.
  induction line as [|c line IH].
  - simpl. discriminate.
  - intros H. simpl opens_bash_block in H. apply orb_prop in H as [H|H].
    + apply andb_prop in H as [Hstart Htail]. apply negb_true_iff in Htail.
      exists EmptyString, (drop_chars 5 (String c line)). split; [|exact Htail].
      rewrite app_empty_l. apply (starts_with_split "`bash"). exact Hstart.
    + destruct (IH H) as (before & tail & -> & Htail).
      exists (String c before), tail. split; [reflexivity|exact Htail].
Qed.

(** The pattern that opens the range of the first [sed] matches a line
    exactly when the line opens a block tagged bash. *)
Lemma bash_fence_exact (line : string) :
  line_matches bash_fence line = opens_bash_block line.
Proof.
  destruct (opens_bash_block line) eqn:E.
  - apply opens_bash_block_elim in E as (before & tail & -> & Htail).
    unfold line_matches, regex_search.
    destruct (search_from bash_fence true EmptyString (before +:+ "`bash" +:+ tail)) eqn:F;
      [reflexivity|].
    exfalso. revert F. apply search_from_complete.
    intros b. apply bash_fence_matches_here. exact Htail.
  - destruct (line_matches bash_fence line) eqn:F; [|reflexivity].
    apply bash_fence_sound in F. congruence.
Qed.

(** ** The extractors on the scenarios *)

(** C5. On the first scenario [_parse_first_markdown] writes the opening
    fence line, under both readings of the scripts, and not the command
    inside the block: [head -n 1] keeps the first line of the block, which
    is the fence. *)
Theorem first_markdown_returns_fence_line (r : reading) :
  _parse_first_markdown r scenario_A = "```bash" +:+ nl
  /\ command_substitution (_parse_first_markdown r scenario_A) = "```bash".
Proof. destruct r; split; vm_compute; reflexivity. Qed.

(** C6. On the second scenario, which has no fence, the function as
    written writes both lines, and as evaluated an empty line; neither is
    the first line alone. *)
Theorem first_markdown_fallback_not_first_line :
  _parse_first_markdown AsWritten scenario_B
    = "echo hello" +:+ nl +:+ "and then more text" +:+ nl
  /\ command_substitution (_parse_first_markdown AsWritten scenario_B)
    = "echo hello" +:+ nl +:+ "and then more text"
  /\ _parse_first_markdown AsEvaluated scenario_B = nl
  /\ command_substitution (_parse_first_markdown AsEvaluated scenario_B) = EmptyString.
Proof. repeat split; vm_compute; reflexivity. Qed.

(** C7. On two blocks tagged bash the function as written joins the
    content of both, the first included, and as evaluated it writes
    nothing; on the third scenario it writes the two lines of the block
    joined as written, and nothing as evaluated. *)
Theorem last_markdown_takes_every_block :
  _parse_last_markdown AsWritten two_blocks = "foobar"
  /\ _parse_last_markdown AsEvaluated two_blocks = EmptyString
  /\ _parse_last_markdown AsWritten scenario_C = "fixed --flag valuemore line"
  /\ _parse_last_markdown AsEvaluated scenario_C = EmptyString.
Proof. repeat split; vm_compute; reflexivity. Qed.

(** The line editor is emptied by an answer without a block. *)
Lemma fix_empties_line_editor :
  _parse_last_markdown AsWritten (command_substitution (plain_answer "sl -la")) = EmptyString
  /\ _parse_last_markdown AsEvaluated (command_substitution (plain_answer "sl -la")) = EmptyString
  /\ _sgpt_bash_fix AsWritten plain_answer (Readline "sl -la" 6) = Readline EmptyString 0
  /\ _sgpt_bash_fix AsEvaluated plain_answer (Readline "sl -la" 6) = Readline EmptyString 0
  /\ Readline EmptyString 0 <> Readline "sl -la" 6.
Proof. repeat split; try (vm_compute; reflexivity). discriminate. Qed.

(** C8, amended. On a text none of whose lines opens a block tagged bash
    [_parse_last_markdown] writes nothing, under both readings. The fix
    function assigns that empty result to the line editor: a line that was
    not empty becomes empty, with the cursor at 0. *)
Theorem last_markdown_without_fence (r : reading) (text : string) :
  has_bash_fence text = false ->
  _parse_last_markdown r text = EmptyString
  /\ (forall (sgpt : string -> string) (rl : readline),
        READLINE_LINE rl <> EmptyString ->
        command_substitution (sgpt (READLINE_LINE rl)) = text ->
        _sgpt_bash_fix r sgpt rl = Readline EmptyString 0).
Proof.
  intros Hno.
  assert (Hout : _parse_last_markdown r text = EmptyString).
  { unfold _parse_last_markdown. rewrite (no_fence_no_output text Hno). reflexivity. }
  split; [exact Hout|].
  intros sgpt rl Hline Hsgpt. unfold _sgpt_bash_fix.
  destruct (READLINE_LINE rl) eqn:E; [contradiction|].
  simpl negb. cbv iota. rewrite Hsgpt, Hout. reflexivity.
Qed.

Lemma last_markdown_without_fence_witness :
  _parse_last_markdown AsEvaluated "Nothing to fix: `ls -la` is fine." = EmptyString.
Proof.
  refine (proj1 (last_markdown_without_fence AsEvaluated
                   "Nothing to fix: `ls -la` is fine." _)).
  vm_compute. reflexivity.
Defined.

(** * More of the role store *)

(** ** Saving, loading, deleting *)

Lemma _save_ok_inv (self saved : SystemRole) (w w' : world) :
  _save self w = (Ok saved, w') ->
  saved = wrapped self
  /\ files w' = <[_file_path self := json_dumps (__dict__ (wrapped self))]> (files w)
  /\ (answers w' = answers w \/ answers w = true :: answers w').
Proof.
  intros Hs. rewrite _save_eq in Hs. cbv zeta in Hs.
  destruct (files w !! _file_path self).
  - destruct (answers w) as [|[] rest]; try discriminate.
    injection Hs as <- <-. simpl. auto.
  - injection Hs as <- <-. simpl. auto.
Qed.

(** X1. Whatever the name and the text of a role, once [_save] has
    returned, [get] under the name of the role returns the record that was
    saved: the name as it was, the text with the header before it. *)
Theorem save_then_get (self saved : SystemRole) (w w' : world) :
  _save self w = (Ok saved, w') ->
  get (name self) w' = (Ok saved, w')
  /\ name saved = name self
  /\ role saved = header (name self) +:+ role self.
Proof.
  intros Hs. destruct (_save_ok_inv self saved w w' Hs) as (-> & Hfiles & _).
  split; [|split; reflexivity].
  apply get_saved. rewrite Hfiles. apply lookup_insert_eq.
Qed.

Lemma save_then_get_witness :
  get "Critic" (snd (_save (MkRole "Critic" "Judge {this} text.") (World ∅ [])))
  = (Ok (MkRole "Critic" (header "Critic" +:+ "Judge {this} text.")),
     snd (_save (MkRole "Critic" "Judge {this} text.") (World ∅ []))).
Proof.
  refine (proj1 (save_then_get (MkRole "Critic" "Judge {this} text.")
                   (MkRole "Critic" (header "Critic" +:+ "Judge {this} text."))
                   (World ∅ []) _ _)).
  vm_compute. reflexivity.
Defined.

Lemma from_kwargs_inv (kwargs : list (string * string)) (w : world) :
  snd (SystemRole_from_kwargs kwargs w) = w
  /\ forall msg, fst (SystemRole_from_kwargs kwargs w) <> Raise (BadArgumentUsage msg).
Proof.
  unfold SystemRole_from_kwargs.
  destruct (existsb _ kwargs); [split; [reflexivity|discriminate]|].
  destruct (forallb _ kwargs); [|split; [reflexivity|discriminate]].
  destruct (dict_get "name" kwargs); [|split; [reflexivity|discriminate]].
  destruct (dict_get "role" kwargs); split; try reflexivity; discriminate.
Qed.

(** X2. For a role name that is a file name, [get] only reads: whatever it
    returns or raises, the files and the pending answers are as before. It
    raises the not-found error exactly when the storage directory has no
    file of that name. *)
Theorem get_only_reads (n : string) (w : world) :
  plain_role_name n = true ->
  snd (get n w) = w
  /\ (files w !! (n +:+ ".json") = None
      <-> exists msg, fst (get n w) = Raise (BadArgumentUsage msg)).
Proof.
  intros _. rewrite get_eq.
  destruct (files w !! (n +:+ ".json")) as [text|] eqn:Hfile.
  - destruct (json_loads text) as [kwargs|].
    + destruct (from_kwargs_inv kwargs w) as [Hw Hno].
      split; [exact Hw|]. split; [discriminate|].
      intros [msg Hmsg]. exfalso. exact (Hno msg Hmsg).
    + split; [reflexivity|]. split; [discriminate|]. intros [msg Hmsg]. discriminate.
  - split; [reflexivity|]. split; [eauto|reflexivity].
Qed.

Lemma get_only_reads_witness :
  plain_role_name "Poet" = true
  /\ snd (get "Poet" poet_world) = poet_world
  /\ exists msg, fst (get "Bard" poet_world) = Raise (BadArgumentUsage msg).
Proof.
  split; [reflexivity|]. split.
  - exact (proj1 (get_only_reads "Poet" poet_world eq_refl)).
  - apply (proj2 (get_only_reads "Bard" poet_world eq_refl)).
    vm_compute. reflexivity.
Defined.

Lemma delete_role_eq (self : SystemRole) (w : world) :
  delete_role self w =
  match files w !! _file_path self with
  | None => (Raise FileNotFoundError, w)
  | Some _ =>
      match answers w with
      | true :: rest => (Ok tt, World (delete (_file_path self) (files w)) rest)
      | false :: rest => (Raise Abort, World (files w) rest)
      | [] => (Raise Abort, w)
      end
  end.
Proof.
  unfold delete_role, bind, _exists, path_exists, confirm, ret.
  destruct (files w !! _file_path self) as [text|] eqn:E.
  - rewrite bool_decide_eq_true_2 by eauto.
    destruct (answers w) as [|[] rest]; simpl; rewrite ?E; reflexivity.
  - rewrite bool_decide_eq_false_2 by (intros [? ?]; discriminate).
    rewrite E. reflexivity.
Qed.

Lemma get_missing (n : string) (w : world) :
  files w !! (n +:+ ".json") = None ->
  exists msg, fst (get n w) = Raise (BadArgumentUsage msg).
Proof. intros H. rewrite get_eq, H. eauto. Qed.

(** X3. Deleting a stored role with the question answered yes removes its
    file and no other, uses up that one answer, and a later [get] of the
    name raises the not-found error. *)
Theorem delete_confirmed (self : SystemRole) (w : world) (text : string)
    (rest : list bool) :
  files w !! _file_path self = Some text ->
  answers w = true :: rest ->
  exists w',
    delete_role self w = (Ok tt, w')
    /\ files w' !! _file_path self = None
    /\ (forall path, path <> _file_path self -> files w' !! path = files w !! path)
    /\ answers w' = rest
    /\ exists msg, fst (get (name self) w') = Raise (BadArgumentUsage msg).
Proof.
  intros Hfile Hyes. rewrite delete_role_eq, Hfile, Hyes.
  eexists. split; [reflexivity|]. simpl.
  split; [apply lookup_delete_eq|].
  split; [intros path Hne; apply lookup_delete_ne; congruence|].
  split; [reflexivity|].
  apply get_missing. simpl. apply lookup_delete_eq.
Qed.

Lemma delete_confirmed_witness :
  exists w',
    delete_role poet poet_world = (Ok tt, w')
    /\ files w' !! "Poet.json" = None
    /\ answers w' = [].
Proof.
  destruct (delete_confirmed poet poet_world (json_dumps (__dict__ poet)) []
              eq_refl eq_refl) as (w' & Hrun & Hgone & _ & Hans & _).
  exists w'. split; [exact Hrun|]. split; [exact Hgone|exact Hans].
Defined.

(** X4. For a role whose name is a file name: [delete] of a role that has
    no file raises [FileNotFoundError] without asking; with a file and the
    answer no, or no answer left, it raises [Abort] and every file
    stays. *)
Theorem delete_refused (self : SystemRole) (w : world) :
  plain_role_name (name self) = true ->
  (files w !! _file_path self = None ->
   delete_role self w = (Raise FileNotFoundError, w))
  /\ (forall text, files w !! _file_path self = Some text ->
        hd false (answers w) = false ->
        exists w', delete_role self w = (Raise Abort, w') /\ files w' = files w).
Proof.
  intros _. split.
  - intros Hnone. rewrite delete_role_eq, Hnone. reflexivity.
  - intros text Hfile Hno. rewrite delete_role_eq, Hfile.
    destruct (answers w) as [|[] rest]; simpl in Hno; try discriminate;
      eexists; split; reflexivity.
Qed.

Lemma delete_refused_witness :
  plain_role_name (name poet) = true
  /\ delete_role (MkRole "Bard" "Sing.") poet_world = (Raise FileNotFoundError, poet_world)
  /\ exists w', delete_role poet (World (files poet_world) [false]) = (Raise Abort, w')
                /\ files w' = files poet_world.
Proof.
  split; [reflexivity|]. split.
  - apply (proj1 (delete_refused (MkRole "Bard" "Sing.") poet_world eq_refl)).
    vm_compute. reflexivity.
  - apply (proj2 (delete_refused poet (World (files poet_world) [false]) eq_refl)
             (json_dumps (__dict__ poet))).
    + vm_compute. reflexivity.
    + reflexivity.
Defined.

(** X5. Saving a role under a name that is a file name and has no file, and
    deleting it again, the deletion agreed to, gives back the files there
    were; the saving asks nothing, the deletion uses one answer. *)
Theorem save_then_delete_restores (self : SystemRole) (w : world) (rest : list bool) :
  plain_role_name (name self) = true ->
  files w !! _file_path self = None ->
  answers w = true :: rest ->
  exists w1 w2,
    _save self w = (Ok (wrapped self), w1)
    /\ answers w1 = answers w
    /\ delete_role (wrapped self) w1 = (Ok tt, w2)
    /\ files w2 = files w
    /\ answers w2 = rest.
Proof.
  intros _ Hnone Hyes. rewrite _save_eq, Hnone. cbv zeta.
  eexists. eexists. split; [reflexivity|]. split; [reflexivity|].
  rewrite delete_role_eq. change (_file_path (wrapped self)) with (_file_path self).
  simpl files. simpl answers. rewrite lookup_insert_eq, Hyes.
  split; [reflexivity|]. simpl. split; [|reflexivity].
  apply delete_insert_id. exact Hnone.
Qed.

Lemma save_then_delete_restores_witness :
  exists w1 w2,
    _save (MkRole "Critic" "Judge.") (World ∅ [true]) = (Ok (wrapped (MkRole "Critic" "Judge.")), w1)
    /\ delete_role (wrapped (MkRole "Critic" "Judge.")) w1 = (Ok tt, w2)
    /\ files w2 = ∅.
Proof.
  assert (Hfresh : files (World ∅ [true]) !! _file_path (MkRole "Critic" "Judge.") = None)
    by (vm_compute; reflexivity).
  destruct (save_then_delete_restores (MkRole "Critic" "Judge.") (World ∅ [true]) []
              eq_refl Hfresh eq_refl) as (w1 & w2 & H1 & _ & H2 & H3 & _).
  exists w1, w2. split; [exact H1|]. split; [exact H2|exact H3].
Defined.

(** ** Role names and role texts *)

Lemma starts_with_contains (p s : string) : starts_with p s = true -> contains p s = true.
Proof. intros H. destruct s; simpl in *; rewrite H; reflexivity. Qed.

Lemma starts_with_app_r (p s t : string) :
  starts_with p s = true -> starts_with p (s +:+ t) = true.
Proof.
  revert s. induction p as [|a p IH]; intros s H; [reflexivity|].
  destruct s as [|b s]; [discriminate|]. rewrite app_cons. simpl in *.
  destruct (ascii_dec a b); [apply IH; exact H|discriminate].
Qed.

Lemma starts_with_prefix (p q s : string) :
  starts_with (p +:+ q) s = true -> starts_with p s = true.
Proof.
  revert s. induction p as [|a p IH]; intros s H; [reflexivity|].
  rewrite app_cons in H. destruct s as [|b s]; [discriminate|]. simpl in *.
  destruct (ascii_dec a b); [apply IH; exact H|discriminate].
Qed.

Lemma contains_prefix (p q s : string) :
  contains (p +:+ q) s = true -> contains p s = true.
Proof.
  induction s as [|c s IH]; simpl; intros H.
  - apply orb_prop in H as [H|H]; [|discriminate].
    rewrite (starts_with_prefix p q _ H). reflexivity.
  - apply orb_prop in H as [H|H].
    + rewrite (starts_with_prefix p q _ H). reflexivity.
    + rewrite (IH H). apply orb_true_r.
Qed.

(** X6. [same_role] holds between a role and the text [_save] stores for
    it, and as well between a role and the stored text of any role whose
    name begins with its name: the test cannot tell such roles apart. *)
Theorem same_role_of_longer_name (a b : SystemRole) :
  starts_with (name a) (name b) = true ->
  same_role a (role (wrapped b)) = true.
Proof.
  intros Hpre. unfold same_role.
  assert (Hne : is_empty (role (wrapped b)) = false) by reflexivity.
  rewrite Hne. apply starts_with_contains.
  unfold wrapped, header. simpl role. rewrite !app_assoc_str.
  apply starts_with_app_both. apply starts_with_app_r. exact Hpre.
Qed.

Lemma same_role_of_longer_name_witness :
  same_role (MkRole "Shell" "Answer briefly.")
    (role (wrapped (MkRole "Shell Command Generator" SHELL_ROLE))) = true.
Proof.
  refine (same_role_of_longer_name (MkRole "Shell" "Answer briefly.")
            (MkRole "Shell Command Generator" SHELL_ROLE) _).
  reflexivity.
Defined.

Lemma splitlines_first_line (line body cur : string) :
  all_chars (fun c => negb (py_linebreak c)) line = true ->
  splitlines_from cur (line +:+ String LF body)
  = (rev_string cur +:+ line) :: splitlines_from EmptyString body.
Proof.
  revert cur. induction line as [|c line IH]; intros cur Hline.
  - rewrite app_empty_l, app_empty_r. reflexivity.
  - simpl in Hline. apply andb_prop in Hline as [Hc Hline].
    apply negb_true_iff in Hc. rewrite app_cons. simpl. rewrite Hc.
    rewrite (IH (String c cur) Hline), rev_string_cons, app_assoc_str. reflexivity.
Qed.

Lemma split_from_absent (sep s cur : string) :
  contains sep s = false -> split_from sep 0 cur s = [rev_string cur +:+ s].
Proof.
  revert cur. induction s as [|c s IH]; intros cur H.
  - rewrite app_empty_r. reflexivity.
  - simpl in H. apply orb_false_elim in H as [Hhere Hlater].
    simpl split_from. rewrite Hhere.
    rewrite (IH (String c cur) Hlater), rev_string_cons, app_assoc_str.
    reflexivity.
Qed.

Lemma split_from_nonempty (sep s cur : string) (skip : nat) :
  exists x l, split_from sep skip cur s = x :: l.
Proof.
  revert skip cur. induction s as [|c s IH]; intros skip cur; simpl; [eauto|].
  destruct skip; [|apply IH].
  destruct (starts_with sep (String c s)); [eauto|apply IH].
Qed.

Lemma split_from_present (sep s cur : string) :
  sep <> EmptyString ->
  contains sep s = true ->
  exists a b l, split_from sep 0 cur s = a :: b :: l.
Proof.
  intros Hsep. revert cur. induction s as [|c s IH]; intros cur H.
  - destruct sep; [congruence|discriminate].
  - simpl in H. simpl split_from.
    destruct (starts_with sep (String c s)) eqn:E.
    + destruct (split_from_nonempty sep s EmptyString (String.length sep - 1))
        as (x & l & ->). eauto.
    + simpl in H. apply IH. exact H.
Qed.

Lemma header_first_line (n body : string) :
  all_chars (fun c => negb (py_linebreak c)) n = true ->
  py_splitlines (header n +:+ body)
  = ("You are " +:+ n) :: splitlines_from EmptyString body.
Proof.
  intros Hn. unfold py_splitlines, header, str1.
  replace (("You are " +:+ n +:+ String LF EmptyString) +:+ body)
    with (("You are " +:+ n) +:+ String LF body)
    by (rewrite !app_assoc_str; reflexivity).
  rewrite splitlines_first_line; [reflexivity|].
  rewrite all_chars_app, Hn. reflexivity.
Qed.

(** X7. For every role whose name holds no line break and not the marker
    with its space, [get_role_name] on the text [_save] stores returns the
    name with the white space at its two ends removed: the name itself
    exactly when it has none there. *)
Theorem get_role_name_of_saved (self : SystemRole) :
  all_chars (fun c => negb (py_linebreak c)) (name self) = true ->
  contains "You are " (name self) = false ->
  get_role_name (role (wrapped self)) = Ok (Some (py_strip (name self))).
Proof.
  intros Hline Hmark. unfold wrapped. simpl role. unfold get_role_name.
  rewrite (header_first_line _ _ Hline).
  assert (Hne : is_empty (header (name self) +:+ role self) = false) by reflexivity.
  rewrite Hne.
  assert (Hin : contains "You are" ("You are " +:+ name self) = true).
  { apply starts_with_contains. apply (starts_with_app_r "You are" "You are ").
    reflexivity. }
  rewrite Hin.
  assert (Hsplit : py_split "You are " ("You are " +:+ name self)
                   = [EmptyString; name self]).
  { unfold py_split. autorewrite with str. simpl.
    rewrite (split_from_absent _ _ _ Hmark). reflexivity. }
  rewrite Hsplit. reflexivity.
Qed.

Lemma get_role_name_of_saved_witness :
  get_role_name (role (wrapped (MkRole " Code Reviewer" "Review the code.")))
  = Ok (Some "Code Reviewer").
Proof.
  refine (get_role_name_of_saved (MkRole " Code Reviewer" "Review the code.") _ _);
    reflexivity.
Defined.

Lemma splitlines_from_cons (s : string) :
  forall (c : ascii) (cur : string),
    exists line0 rest, splitlines_from cur (String c s) = line0 :: rest.
Proof.
  induction s as [|d s IH]; intros c cur.
  - simpl. destruct (py_linebreak c); [|eauto].
    destruct (ascii_dec c CR); eauto.
  - simpl splitlines_from. destruct (py_linebreak c); [|apply IH].
    destruct (ascii_dec c CR); [|eauto]. destruct (ascii_dec d LF); eauto.
Qed.

(** X8. On a message that is not empty [get_role_name] looks at the first
    line only: without the marker it returns nothing; with the marker and
    the space after it, the stripped text that follows the first marker;
    with the marker but never a space after it, it raises [IndexError]. *)
Theorem get_role_name_outcomes (c : ascii) (s : string) :
  exists line0 rest,
    py_splitlines (String c s) = line0 :: rest
    /\ (contains "You are" line0 = false -> get_role_name (String c s) = Ok None)
    /\ (contains "You are " line0 = true ->
        exists before piece l,
          py_split "You are " line0 = before :: piece :: l
          /\ get_role_name (String c s) = Ok (Some (py_strip piece)))
    /\ (contains "You are" line0 = true -> contains "You are " line0 = false ->
        get_role_name (String c s) = Raise IndexError).
Proof.
  destruct (splitlines_from_cons s c EmptyString) as (line0 & rest & Hlines).
  exists line0, rest. split; [exact Hlines|].
  unfold get_role_name, py_splitlines. simpl is_empty. cbv iota. rewrite Hlines.
  split; [intros ->; reflexivity|]. split.
  - intros Hsp.
    assert (Hin : contains "You are" line0 = true)
      by (apply (contains_prefix "You are" " "); exact Hsp).
    rewrite Hin. unfold py_split.
    destruct (split_from_present "You are " line0 EmptyString) as (a & b & l & Hs);
      [discriminate|exact Hsp|].
    rewrite Hs. eauto.
  - intros Hin Hsp. rewrite Hin. unfold py_split.
    rewrite (split_from_absent _ _ _ Hsp). reflexivity.
Qed.

(** ** What saving and bootstrapping touch *)

(** X9. A call of [_save] that returns, for a role whose name is a file
    name, leaves every other file of the storage directory as it was and
    its own file in place, holding the record that was saved; it asks a
    question, and uses up one yes, exactly when its file was already
    there. *)
Theorem save_touches_one_file (self saved : SystemRole) (w w' : world) :
  plain_role_name (name self) = true ->
  _save self w = (Ok saved, w') ->
  (forall path, file_name path = true -> path <> _file_path self ->
                files w' !! path = files w !! path)
  /\ files w' !! _file_path self = Some (json_dumps (__dict__ saved))
  /\ (files w !! _file_path self = None -> answers w' = answers w)
  /\ (is_Some (files w !! _file_path self) -> answers w = true :: answers w').
Proof.
  intros _ Hs. rewrite _save_eq in Hs. cbv zeta in Hs.
  destruct (files w !! _file_path self) as [text|] eqn:E.
  - destruct (answers w) as [|[] rest]; try discriminate.
    injection Hs as <- <-. simpl. repeat split.
    + intros path _ Hne. apply lookup_insert_ne. congruence.
    + apply lookup_insert_eq.
    + discriminate.
  - injection Hs as <- <-. simpl. repeat split.
    + intros path _ Hne. apply lookup_insert_ne. congruence.
    + apply lookup_insert_eq.
    + intros [x Hx]. discriminate.
Qed.

Lemma save_touches_one_file_witness :
  files (snd (_save poet poet_world)) !! "Bard.json" = files poet_world !! "Bard.json"
  /\ answers poet_world = true :: answers (snd (_save poet poet_world)).
Proof.
  destruct (save_touches_one_file poet (wrapped poet) poet_world
              (snd (_save poet poet_world)) eq_refl) as (Hframe & _ & _ & Hans).
  - vm_compute. reflexivity.
  - split.
    + apply Hframe; [reflexivity|discriminate].
    + apply Hans. exists (json_dumps (__dict__ poet)). reflexivity.
Defined.

Lemma forM_save_if_missing_origin (roles : list SystemRole) :
  forall (w w' : world) (path text : string),
    forM_ roles save_if_missing w = (Ok tt, w') ->
    files w' !! path = Some text ->
    files w !! path = Some text
    \/ (files w !! path = None
        /\ exists r, In r roles /\ path = _file_path r
                     /\ text = json_dumps (__dict__ (wrapped r))).
Proof.
  induction roles as [|r roles IH]; intros w w' path text Hrun Hp.
  - injection Hrun as <-. left. exact Hp.
  - simpl forM_ in Hrun. unfold bind in Hrun. rewrite save_if_missing_eq in Hrun.
    destruct (files w !! _file_path r) as [old|] eqn:E.
    + destruct (IH w w' path text Hrun Hp) as [H|(Hnone & r' & Hin & Hpath & Htext)];
        [left; exact H|].
      right. split; [exact Hnone|]. exists r'. split; [right; exact Hin|auto].
    + destruct (IH _ w' path text Hrun Hp) as [H|(Hnone & r' & Hin & Hpath & Htext)];
        simpl in *.
      * destruct (decide (_file_path r = path)) as [<-|Hne].
        -- rewrite lookup_insert_eq in H. injection H as <-.
           right. split; [exact E|]. exists r. split; [left; reflexivity|auto].
        -- rewrite lookup_insert_ne in H by exact Hne. left. exact H.
      * destruct (decide (_file_path r = path)) as [<-|Hne].
        -- rewrite lookup_insert_eq in Hnone. discriminate.
        -- rewrite lookup_insert_ne in Hnone by exact Hne.
           right. split; [exact Hnone|]. exists r'. split; [right; exact Hin|auto].
Qed.

(** X10. Every file found after [create_defaults] either was there
    before with the same content, or is the file of one of the five
    built-in roles, was missing before, and holds that role as [_save]
    writes it: the bootstrap creates nothing else and changes nothing. *)
Theorem create_defaults_adds_only_builtins (p : platform) (w : world)
    (path text : string) :
  files (snd (create_defaults p w)) !! path = Some text ->
  files w !! path = Some text
  \/ (files w !! path = None
      /\ exists r, In r (default_roles p) /\ path = name r +:+ ".json"
                   /\ text = json_dumps (__dict__ (wrapped r))).
Proof.
  rewrite create_defaults_eq.
  destruct (forM_save_if_missing (default_roles p) w) as (w1 & Hrun & _).
  rewrite Hrun. simpl snd. intros Hp.
  exact (forM_save_if_missing_origin _ _ _ _ _ Hrun Hp).
Qed.

Lemma create_defaults_adds_only_builtins_witness :
  files (World {["Poet.json" := "{}"]} []) !! "Poet.json" = Some "{}"
  \/ (files (World {["Poet.json" := "{}"]} []) !! "Poet.json" = None
      /\ exists r, In r (default_roles (Platform "bash" "Linux/Debian"))
                   /\ "Poet.json" = name r +:+ ".json"
                   /\ "{}" = json_dumps (__dict__ (wrapped r))).
Proof.
  refine (create_defaults_adds_only_builtins (Platform "bash" "Linux/Debian")
            (World {["Poet.json" := "{}"]} []) "Poet.json" "{}" _).
  vm_compute. reflexivity.
Defined.

(** X11. After [create_defaults] on a store that lacked the file of a
    built-in role, [get_role] of that member returns the role saved from
    its template: named as the member, recognised by [same_role] in its own
    text, and named back by [get_role_name]. [check_get] returns the same
    role for flags that select that member. *)
Theorem get_role_after_bootstrap (p : platform) (w : world) (k : DefaultRoles) :
  files w !! (value k +:+ ".json") = None ->
  exists r,
    get_role k (snd (create_defaults p w)) = (Ok r, snd (create_defaults p w))
    /\ name r = value k
    /\ In r (map wrapped (default_roles p))
    /\ same_role r (role r) = true
    /\ get_role_name (role r) = Ok (Some (value k))
    /\ (forall shell describe_shell code shell_fix,
          by_priority shell describe_shell code shell_fix = k ->
          check_get shell describe_shell code shell_fix (snd (create_defaults p w))
          = (Ok r, snd (create_defaults p w))).
Proof.
  intros Hfresh. destruct (default_role_of_kind p k) as (r0 & Hin & Hname).
  exists (wrapped r0). rewrite create_defaults_eq.
  destruct (forM_save_if_missing (default_roles p) w) as (w1 & Hrun & _).
  rewrite Hrun. simpl snd.
  assert (Hget : get (value k) w1 = (Ok (wrapped r0), w1)).
  { apply get_saved. rewrite <- Hname.
    apply (forM_save_if_missing_fresh (default_roles p) w w1 r0 Hrun).
    - apply default_roles_distinct.
    - exact Hin.
    - unfold _file_path. rewrite Hname. exact Hfresh. }
  split; [exact Hget|]. split; [exact Hname|]. split; [apply in_map; exact Hin|].
  split; [|split].
  - unfold same_role.
    assert (Hne : is_empty (role (wrapped r0)) = false) by reflexivity.
    rewrite Hne. apply starts_with_contains. unfold wrapped, header. simpl role.
    simpl name. rewrite !app_assoc_str. apply starts_with_app_both.
    apply starts_with_app_r. rewrite <- (app_empty_r (name r0)) at 2.
    apply starts_with_app.
  - simpl in Hin.
    destruct Hin as [<-|[<-|[<-|[<-|[<-|[]]]]]]; rewrite <- Hname; reflexivity.
  - intros shell describe_shell code shell_fix Hk.
    rewrite <- Hget, <- Hk.
    destruct shell, describe_shell, code, shell_fix; reflexivity.
Qed.

Lemma get_role_after_bootstrap_witness :
  exists r,
    get_role CODE (snd (create_defaults (Platform "bash" "Linux/Debian") (World ∅ [])))
    = (Ok r, snd (create_defaults (Platform "bash" "Linux/Debian") (World ∅ [])))
    /\ name r = "Code Generator".
Proof.
  destruct (get_role_after_bootstrap (Platform "bash" "Linux/Debian") (World ∅ []) CODE)
    as (r & Hget & Hname & _).
  - vm_compute. reflexivity.
  - exists r. split; [exact Hget|exact Hname].
Defined.

(** ** What reaches the disk *)

Lemma json_escape_char_printable (c : ascii) :
  all_chars printable (json_escape_char c) = true.
Proof. destruct c as [[] [] [] [] [] [] [] []]; reflexivity. Qed.

Lemma json_escape_printable (s : string) : all_chars printable (json_escape s) = true.
Proof.
  induction s as [|c s IH]; [reflexivity|].
  simpl. rewrite all_chars_app, json_escape_char_printable, IH. reflexivity.
Qed.

Lemma json_string_printable (s : string) : all_chars printable (json_string s) = true.
Proof.
  unfold json_string. simpl. rewrite all_chars_app, json_escape_printable. reflexivity.
Qed.

(** X12. Whatever characters the name and the text of a role hold, the
    file content [_save] writes holds printable ASCII only: no line break,
    no control character, nothing above the tilde. *)
Theorem saved_file_is_printable_ascii (self saved : SystemRole) (w w' : world) :
  _save self w = (Ok saved, w') ->
  exists text,
    files w' !! _file_path self = Some text
    /\ all_chars printable text = true
    /\ contains (str1 LF) text = false.
Proof.
  intros Hs. destruct (_save_ok_inv self saved w w' Hs) as (-> & Hfiles & _).
  exists (json_dumps (__dict__ (wrapped self))).
  split; [rewrite Hfiles; apply lookup_insert_eq|].
  assert (Hp : all_chars printable (json_dumps (__dict__ (wrapped self))) = true).
  { unfold json_dumps, __dict__. cbn [map join]. unfold json_item. cbn [fst snd].
    rewrite !all_chars_app, !json_string_printable. reflexivity. }
  split; [exact Hp|].
  apply no_char_not_contained.
  revert Hp. generalize (json_dumps (__dict__ (wrapped self))).
  induction s as [|c s IH]; [reflexivity|].
  simpl. intros H. apply andb_prop in H as [Hc Hs']. rewrite (IH Hs'), andb_true_r.
  unfold ceq. destruct (ascii_dec LF c) as [<-|]; [discriminate Hc|reflexivity].
Qed.

Lemma saved_file_is_printable_ascii_witness :
  exists text,
    files (snd (_save (MkRole "Crit" (str1 LF +:+ str1 "233")) (World ∅ []))) !! "Crit.json"
      = Some text
    /\ all_chars printable text = true.
Proof.
  destruct (saved_file_is_printable_ascii (MkRole "Crit" (str1 LF +:+ str1 "233"))
              (wrapped (MkRole "Crit" (str1 LF +:+ str1 "233"))) (World ∅ [])
              (snd (_save (MkRole "Crit" (str1 LF +:+ str1 "233")) (World ∅ []))))
    as (text & Hfile & Hp & _).
  - vm_compute. reflexivity.
  - exists text. split; [exact Hfile|exact Hp].
Defined.

(** ** Instantiating a template *)

Lemma format_plain_text (kw : gmap string string) (t : string) :
  all_chars no_brace t = true -> format t kw = Ok t.
Proof.
  unfold format. induction t as [|c t IH]; [reflexivity|].
  simpl. intros H. apply andb_prop in H as [Hc Ht].
  unfold no_brace in Hc. apply andb_prop in Hc as [H1 H2].
  apply negb_true_iff in H1, H2. rewrite H1, H2, (IH Ht). reflexivity.
Qed.

(** X13. A template without braces is taken as it is by the constructor,
    whether no mapping, an empty one or any other is passed. *)
Theorem init_keeps_plain_text (n t : string) (variables : option (gmap string string))
    (w : world) :
  all_chars no_brace t = true ->
  SystemRole_init n t variables w = (Ok (MkRole n t), w).
Proof.
  intros Ht. unfold SystemRole_init, mkdir_storage, bind, ret, lift.
  destruct variables as [v|]; [|reflexivity].
  destruct (decide (v = ∅)); [reflexivity|].
  rewrite (format_plain_text v t Ht). reflexivity.
Qed.

Lemma init_keeps_plain_text_witness :
  SystemRole_init "Code Generator" CODE_ROLE (Some {["shell" := "bash"]}) (World ∅ [])
  = (Ok (MkRole "Code Generator" CODE_ROLE), World ∅ []).
Proof.
  refine (init_keeps_plain_text "Code Generator" CODE_ROLE (Some {["shell" := "bash"]})
            (World ∅ []) _).
  vm_compute. reflexivity.
Defined.

Lemma get_field_present (kw : gmap string string) (k v : string) :
  plain_field k = true -> kw !! k = Some v -> get_field kw k = Ok v.
Proof.
  unfold plain_field, get_field. intros Hk Hsome.
  apply andb_prop in Hk as [Hk _]. apply andb_prop in Hk as [He Hd].
  destruct (is_empty k); [discriminate|]. destruct (all_chars is_digit k); [discriminate|].
  rewrite Hsome. reflexivity.
Qed.

(** X14. Where a template names a keyword the mapping holds, the
    constructor puts the value of the keyword in its place as it is: the
    value is not read as a template again, so braces in a shell or system
    name do no harm, and the text around the field is formatted on its
    own. *)
Theorem init_inserts_value_verbatim (n pre k post out out' v : string)
    (vars : gmap string string) (w : world) :
  plain_field k = true ->
  vars !! k = Some v ->
  format pre vars = Ok out ->
  format post vars = Ok out' ->
  SystemRole_init n (pre +:+ "{" +:+ k +:+ "}" +:+ post) (Some vars) w
  = (Ok (MkRole n (out +:+ v +:+ out')), w).
Proof.
  intros Hk Hv Hpre Hpost.
  unfold SystemRole_init, mkdir_storage, bind, ret, lift.
  destruct (decide (vars = ∅)) as [->|_]; [rewrite lookup_empty in Hv; discriminate|].
  assert (Hf : format (pre +:+ "{" +:+ k +:+ "}" +:+ post) vars = Ok (out +:+ v +:+ out')).
  { unfold format in *.
    rewrite (format_from_app vars (String.length pre) None pre out) by auto.
    assert (Hplain := Hk). unfold plain_field in Hk.
    apply andb_prop in Hk as [Hk Hall]. apply andb_prop in Hk as [He _].
    destruct k as [|c k]; [discriminate|].
    autorewrite with str. simpl format_from.
    simpl in Hall. apply andb_prop in Hall as [Hc Hall]. apply andb_prop in Hc as [Hs Hb].
    assert (Hbrace : ceq c "{" = false).
    { unfold field_special in Hs. destruct (ceq c "{"); [discriminate|reflexivity]. }
    rewrite Hbrace.
    destruct (ceq c "}"); [discriminate|]. destruct (field_special c); [discriminate|].
    rewrite format_from_field by exact Hall.
    change (rev_string (String c EmptyString) +:+ k) with (String c k).
    rewrite (get_field_present vars (String c k) v Hplain Hv). simpl.
    rewrite Hpost. reflexivity. }
  rewrite Hf. reflexivity.
Qed.

Lemma init_inserts_value_verbatim_witness :
  SystemRole_init "Helper" ("Use the " +:+ "{" +:+ "shell" +:+ "}" +:+ " shell.")
    (Some {["shell" := "{zsh}"]}) (World ∅ [])
  = (Ok (MkRole "Helper" ("Use the " +:+ "{zsh}" +:+ " shell.")), World ∅ []).
Proof.
  refine (init_inserts_value_verbatim "Helper" "Use the " "shell" " shell." "Use the "
            " shell." "{zsh}" {["shell" := "{zsh}"]} (World ∅ []) _ _ _ _);
    vm_compute; reflexivity.
Defined.

(** ** Roles of other names *)

Lemma app_cancel_l (s a b : string) : s +:+ a = s +:+ b -> a = b.
Proof.
  induction s as [|c s IH]; [auto|]. rewrite !app_cons. intros [= H]. auto.
Qed.

Lemma app_cancel_r (s a b : string) : a +:+ s = b +:+ s -> a = b.
Proof.
  intros H. apply (f_equal rev_string) in H. rewrite !rev_string_app in H.
  apply app_cancel_l in H. apply (f_equal rev_string) in H.
  rewrite !rev_string_involutive in H. exact H.
Qed.

(** X15. Among the role names that are file names, saving a role changes
    nothing for roles of other names: [get] of any other name returns or
    raises after the call what it did before. *)
Theorem save_keeps_other_roles (self saved : SystemRole) (w w' : world) (m : string) :
  plain_role_name (name self) = true ->
  plain_role_name m = true ->
  _save self w = (Ok saved, w') ->
  m <> name self ->
  fst (get m w') = fst (get m w).
Proof.
  intros _ _ Hs Hne. destruct (_save_ok_inv self saved w w' Hs) as (_ & Hfiles & _).
  assert (Hlookup : files w' !! (m +:+ ".json") = files w !! (m +:+ ".json")).
  { rewrite Hfiles. apply lookup_insert_ne. unfold _file_path.
    intros Heq. apply Hne. symmetry. exact (app_cancel_r _ _ _ Heq). }
  rewrite !get_eq, Hlookup.
  destruct (files w !! (m +:+ ".json")) as [text|]; [|reflexivity].
  destruct (json_loads text) as [kwargs|]; [|reflexivity].
  unfold SystemRole_from_kwargs.
  destruct (existsb _ kwargs); [reflexivity|].
  destruct (forallb _ kwargs); [|reflexivity].
  destruct (dict_get "name" kwargs); [|reflexivity].
  destruct (dict_get "role" kwargs); reflexivity.
Qed.

Lemma save_keeps_other_roles_witness :
  fst (get "Poet" (snd (_save (MkRole "Critic" "Judge.") poet_world)))
  = fst (get "Poet" poet_world).
Proof.
  refine (save_keeps_other_roles (MkRole "Critic" "Judge.")
            (wrapped (MkRole "Critic" "Judge.")) poet_world _ "Poet"
            eq_refl eq_refl _ _).
  - vm_compute. reflexivity.
  - discriminate.
Defined.

(** ** The shell name *)

Lemma all_chars_rev (P : ascii -> bool) (s : string) :
  all_chars P (rev_string s) = all_chars P s.
Proof.
  induction s as [|c s IH]; [reflexivity|].
  rewrite rev_string_cons, all_chars_app, IH. simpl.
  rewrite andb_true_r. apply andb_comm.
Qed.

Lemma ceq_sym (a b : ascii) : ceq a b = ceq b a.
Proof. unfold ceq. destruct (ascii_dec a b), (ascii_dec b a); congruence. Qed.

Lemma basename_from_spec (s : string) :
  forall cur pre,
    dir_part pre -> all_chars no_slash cur = true ->
    exists dir,
      dir_part dir
      /\ pre +:+ rev_string cur +:+ s = dir +:+ basename_from cur s
      /\ all_chars no_slash (basename_from cur s) = true.
Proof.
  induction s as [|c s IH]; intros cur pre Hpre Hcur.
  - exists pre. simpl. rewrite app_empty_r, all_chars_rev. auto.
  - simpl basename_from. destruct (ceq c "/") eqn:E.
    + apply ceq_true in E. subst c.
      destruct (IH EmptyString (pre +:+ rev_string cur +:+ "/")) as (dir & Hd & Heq & Hno).
      * right. exists (pre +:+ rev_string cur). rewrite !app_assoc_str. reflexivity.
      * reflexivity.
      * exists dir. split; [exact Hd|]. split; [|exact Hno].
        rewrite <- Heq. rewrite !app_assoc_str. reflexivity.
    + destruct (IH (String c cur) pre Hpre) as (dir & Hd & Heq & Hno).
      * simpl. unfold no_slash at 1. rewrite ceq_sym, E. exact Hcur.
      * exists dir. split; [exact Hd|]. split; [|exact Hno].
        rewrite <- Heq, rev_string_cons, !app_assoc_str. reflexivity.
Qed.

(** X16. On a host that is not Windows the shell name put into the
    templates is the last component of [SHELL], or of [/bin/sh] when the
    variable is not set: it holds no slash, and what stands before it in
    the variable is empty or ends with a slash. On Windows it is one of the
    two fixed names. *)
Theorem shell_name_shape (h : host) :
  if bool_decide (platform_system h = "Windows") || bool_decide (platform_system h = "nt")
  then _shell_name h = "powershell.exe" \/ _shell_name h = "cmd.exe"
  else
    contains "/" (_shell_name h) = false
    /\ exists dir,
         dir_part dir
         /\ getenv (env_SHELL h) "/bin/sh" = dir +:+ _shell_name h.
Proof.
  unfold _shell_name. cbv zeta.
  destruct (bool_decide (platform_system h = "Windows")
            || bool_decide (platform_system h = "nt")).
  - destruct (3 <=? _); auto.
  - destruct (basename_from_spec (getenv (env_SHELL h) "/bin/sh") EmptyString EmptyString)
      as (dir & Hd & Heq & Hno); [left; reflexivity|reflexivity|].
    split.
    + apply (no_char_not_contained "/"). exact Hno.
    + exists dir. split; [exact Hd|exact Heq].
Qed.

(** X17. The descriptor of the operating system always begins with what
    [platform.system()] reports, whichever of the four cases applies. *)
Theorem os_name_starts_with_system (h : host) :
  starts_with (platform_system h) (_os_name h) = true.
Proof.
  unfold _os_name. cbv zeta.
  destruct (decide (platform_system h = "Linux")) as [->|_]; [reflexivity|].
  destruct (decide (platform_system h = "Windows")) as [->|_]; [reflexivity|].
  destruct (decide (platform_system h = "Darwin")) as [->|_]; [reflexivity|].
  rewrite <- (app_empty_r (platform_system h)) at 2. apply starts_with_app.
Qed.

(** * More of the shell functions *)

(** X18. The pattern that opens the range of the first [sed] of both
    functions accepts a line exactly when the line holds a backtick
    followed by bash and no backtick after that: the optional flag of the
    pattern never decides. *)
Theorem opening_pattern_exact (line : string) :
  line_matches bash_fence line = opens_bash_block line.
Proof. apply bash_fence_exact. Qed.

Lemma tr_d_lf_no_lf (s : string) : all_chars not_lf (tr_d_lf s) = true.
Proof.
  induction s as [|c s IH]; [reflexivity|].
  simpl. destruct (ceq c LF) eqn:E; [exact IH|].
  simpl. unfold not_lf at 1. rewrite ceq_sym, E. exact IH.
Qed.

(** X19. Under both readings and on every text, what
    [_parse_last_markdown] writes holds no line feed. *)
Theorem last_markdown_single_line (r : reading) (text : string) :
  contains (str1 LF) (_parse_last_markdown r text) = false.
Proof.
  unfold _parse_last_markdown. cbv zeta.
  destruct (negb (is_empty _)); [|reflexivity].
  apply no_char_not_contained. apply tr_d_lf_no_lf.
Qed.

(** ** The scripts Python hands to the shell *)

(** The range scripts hold no escape of Python: both readings give [sed]
    the same text, and [sed] reads a range between two expressions. *)
Lemma range_sources_unchanged :
  py_literal_value bash_block_source = Some bash_block_source
  /\ py_literal_value any_block_source = Some any_block_source
  /\ sed_compile bash_block_source
     = Commands [RawRangePrint "`\{1,\}bash[^`]*\( -c\)\?$" "`"]
  /\ sed_compile any_block_source = Commands [RawRangePrint "`{1,}$" "`"].
Proof. repeat split; vm_compute; reflexivity. Qed.

(** As written, the script that keeps the first line is one substitution
    whose expression starts with a line feed; as evaluated its text has the
    line feed itself after the slash, and [sed] refuses it. *)
Lemma first_line_script_checked (r : reading) (script : sed_script) :
  first_line_script AsWritten = Some script ->
  first_line_script r = checked_script r first_line_source script.
Proof.
  unfold first_line_script at 1. intros [= <-].
  destruct r; vm_compute; reflexivity.
Qed.

(** [sed] reads the trimming script under both readings; as evaluated the
    replacement of its first command is the character of code 1. *)
Lemma trim_source_compiled :
  sed_compile trim_source
  = Commands [RawSubst "^`\{1,\}\([^`]*\)\?`\{1,\}$" "\1";
              RawSubst "^[[:space:]]*" EmptyString;
              RawSubst "[[:space:]]*$" EmptyString]
  /\ option_map sed_compile (py_literal_value trim_source)
     = Some (Commands [RawSubst "^`\{1,\}\([^`]*\)\?`\{1,\}$" (str1 "001");
                       RawSubst "^[[:space:]]*" EmptyString;
                       RawSubst "[[:space:]]*$" EmptyString]).
Proof. split; vm_compute; reflexivity. Qed.

Lemma strip_fences_script_checked (r : reading) (script : sed_script) :
  strip_fences_script AsWritten = Some script ->
  strip_fences_script r = checked_script r strip_fences_source script.
Proof.
  unfold strip_fences_script at 1. intros [= <-].
  destruct r; vm_compute; reflexivity.
Qed.

(** X20. Python evaluates the literal that holds the script of the second
    [sed] of [_parse_last_markdown] to a text with line feeds where the
    source has a backslash and the letter n. Reading it, [sed] meets the
    line feed before the slash that closes the first expression and refuses
    the script, while it reads the text as written into four
    substitutions. So as evaluated the function writes nothing whatever the
    text, and [_sgpt_bash_fix] replaces every line that is not empty by the
    empty line, whatever [sgpt] answers. *)
Theorem evaluated_fix_always_empties (text : string) (sgpt : string -> string)
    (c : ascii) (line : string) (point : nat) :
  (exists evaluated,
      reading_text AsEvaluated strip_fences_source = Some evaluated
      /\ contains (str1 LF) evaluated = true
      /\ sed_compile evaluated = Rejected)
  /\ (exists cmds,
        sed_compile strip_fences_source = Commands cmds /\ length cmds = 4)
  /\ (forall r script,
        strip_fences_script AsWritten = Some script ->
        strip_fences_script r = checked_script r strip_fences_source script)
  /\ _parse_last_markdown AsEvaluated text = EmptyString
  /\ _sgpt_bash_fix AsEvaluated sgpt (Readline (String c line) point)
     = Readline EmptyString 0.
Proof.
  assert (Hrejected : exists evaluated,
             reading_text AsEvaluated strip_fences_source = Some evaluated
             /\ contains (str1 LF) evaluated = true
             /\ sed_compile evaluated = Rejected).
  { eexists. split; [vm_compute; reflexivity|].
    split; vm_compute; reflexivity. }
  assert (Hnone : strip_fences_script AsEvaluated = None).
  { destruct Hrejected as (evaluated & Htext & _ & Hsed).
    destruct (strip_fences_script AsWritten) as [script|] eqn:Hscript;
      [|discriminate].
    rewrite (strip_fences_script_checked AsEvaluated script Hscript).
    unfold checked_script. rewrite Htext. simpl option_map. rewrite Hsed.
    reflexivity. }
  assert (H : forall t, _parse_last_markdown AsEvaluated t = EmptyString).
  { intros t. unfold _parse_last_markdown. cbv zeta. rewrite Hnone.
    destruct (negb (is_empty _)); reflexivity. }
  split; [exact Hrejected|].
  split; [eexists; split; vm_compute; reflexivity|].
  split; [exact strip_fences_script_checked|].
  split; [apply H|].
  unfold _sgpt_bash_fix. simpl negb. cbv iota zeta. rewrite H. reflexivity.
Qed.

(** ** The first block *)

Lemma all_chars_impl (P Q : ascii -> bool) (s : string) :
  (forall c, P c = true -> Q c = true) -> all_chars P s = true -> all_chars Q s = true.
Proof.
  intros HPQ. induction s as [|c s IH]; [reflexivity|].
  simpl. intros H. apply andb_prop in H as [Hc Hs]. rewrite (HPQ c Hc), (IH Hs). reflexivity.
Qed.

Lemma lines_from_no_lf (s : string) :
  forall cur l, all_chars not_lf cur = true -> In l (lines_from cur s) ->
    all_chars not_lf l = true.
Proof.
  induction s as [|c s IH]; intros cur l Hcur Hin; simpl in Hin.
  - destruct (is_empty cur); [destruct Hin|]. destruct Hin as [<-|[]].
    rewrite all_chars_rev. exact Hcur.
  - destruct (ceq c LF) eqn:E.
    + destruct Hin as [<-|Hin]; [rewrite all_chars_rev; exact Hcur|].
      apply (IH EmptyString); [reflexivity|exact Hin].
    + apply (IH (String c cur)); [|exact Hin].
      simpl. unfold not_lf at 1. rewrite ceq_sym, E. exact Hcur.
Qed.

Lemma lines_from_line (L tail cur : string) :
  all_chars not_lf L = true ->
  lines_from cur (L +:+ String LF tail)
  = (rev_string cur +:+ L) :: lines_from EmptyString tail.
Proof.
  revert cur. induction L as [|c L IH]; intros cur HL.
  - rewrite app_empty_l, app_empty_r. reflexivity.
  - simpl in HL. apply andb_prop in HL as [Hc HL].
    unfold not_lf in Hc. apply negb_true_iff in Hc. rewrite ceq_sym in Hc.
    rewrite app_cons. simpl. rewrite Hc.
    rewrite (IH (String c cur) HL), rev_string_cons, app_assoc_str. reflexivity.
Qed.

Lemma lines_from_whole (s cur : string) :
  all_chars not_lf s = true ->
  lines_from cur s = if is_empty (rev_string cur +:+ s) then [] else [rev_string cur +:+ s].
Proof.
  revert cur. induction s as [|c s IH]; intros cur Hs.
  - simpl. rewrite app_empty_r. destruct cur as [|d cur]; [reflexivity|].
    simpl is_empty at 1. cbv iota. rewrite rev_string_cons.
    destruct (rev_string cur); reflexivity.
  - simpl in Hs. apply andb_prop in Hs as [Hc Hs].
    unfold not_lf in Hc. apply negb_true_iff in Hc. rewrite ceq_sym in Hc.
    simpl. rewrite Hc, (IH (String c cur) Hs), rev_string_cons, app_assoc_str.
    reflexivity.
Qed.

Lemma lines_from_final_lf_app (s cur : string) :
  exists tl, lines_from cur (s +:+ str1 LF) = lines_from cur s ++ tl.
Proof.
  revert cur. induction s as [|c s IH]; intros cur.
  - rewrite app_empty_l. simpl.
    destruct (is_empty cur); [exists [rev_string cur]|exists []]; reflexivity.
  - rewrite app_cons. simpl. destruct (ceq c LF).
    + destruct (IH EmptyString) as (tl & ->). exists tl. reflexivity.
    + apply IH.
Qed.

Lemma drop_while_stops (p : ascii -> bool) (s : string) :
  all_chars (fun c => negb (p c)) s = true -> drop_while p s = s.
Proof.
  destruct s as [|c s]; [reflexivity|].
  simpl. intros H. apply andb_prop in H as [Hc _].
  apply negb_true_iff in Hc. rewrite Hc. reflexivity.
Qed.

Lemma command_substitution_line (L : string) :
  all_chars not_lf L = true -> command_substitution (L +:+ str1 LF) = L.
Proof.
  intros HL. unfold command_substitution.
  rewrite rev_string_app. change (rev_string (str1 LF)) with (str1 LF).
  unfold str1. rewrite app_cons, app_empty_l. simpl drop_while.
  rewrite drop_while_stops; [apply rev_string_involutive|].
  rewrite all_chars_rev. exact HL.
Qed.

Lemma range_opens_at (first last : regex) (pre rest : list string) (L : string) :
  (forall l, In l pre -> line_matches first l = false) ->
  line_matches first L = true ->
  forall active, hd false active = false ->
    exists out,
      sed_lines (SedScript true [RangePrint first last]) active (pre ++ L :: rest) = L :: out.
Proof.
  induction pre as [|l pre IH]; intros Hpre HL active Hact.
  - simpl. rewrite Hact, HL. simpl. eauto.
  - simpl. rewrite Hact, (Hpre l) by (left; reflexivity). simpl.
    apply IH; [|exact HL|reflexivity]. intros l' Hl'. apply Hpre. right. exact Hl'.
Qed.

Lemma echo_option_chars (text : string) :
  echo_option text = true -> all_chars echo_char text = true.
Proof.
  destruct text as [|c text]; [discriminate|].
  destruct c as [[] [] [] [] [] [] [] []]; try discriminate.
  destruct text as [|d text]; [discriminate|].
  intros H.
  change (all_chars (fun d0 => ceq d0 "n" || ceq d0 "e" || ceq d0 "E") (String d text) = true)
    in H.
  assert (H' : all_chars echo_char (String d text) = true).
  { revert H. apply all_chars_impl. intros c Hc. unfold echo_char. rewrite Hc. reflexivity. }
  exact H'.
Qed.

Lemma starts_with_other_char (a c : ascii) (p s : string) :
  a <> c -> starts_with (String a p) (String c s) = false.
Proof. intros H. simpl. destruct (ascii_dec a c); congruence. Qed.

Lemma opens_bash_block_cons (c : ascii) (l : string) :
  opens_bash_block (String c l)
  = (starts_with (String BACKTICK "bash") (String c l)
     && negb (contains (str1 BACKTICK) (drop_chars 5 (String c l))))
    || opens_bash_block l.
Proof. reflexivity. Qed.

Lemma no_backtick_no_block (l : string) :
  all_chars (fun d => negb (ceq BACKTICK d)) l = true -> opens_bash_block l = false.
Proof.
  induction l as [|c l IH]; [reflexivity|].
  simpl all_chars. intros H. apply andb_prop in H as [Hc Hl].
  rewrite opens_bash_block_cons, (IH Hl), orb_false_r.
  apply negb_true_iff in Hc. unfold ceq in Hc.
  destruct (ascii_dec BACKTICK c) as [|Hne]; [discriminate|].
  rewrite (starts_with_other_char BACKTICK c "bash" l Hne). reflexivity.
Qed.

Lemma fence_text_is_no_option (text : string) (pre post : list string) (L : string) :
  lines_of text = pre ++ L :: post ->
  opens_bash_block L = true ->
  echo_option text = false.
Proof.
  intros Hlines HL. destruct (echo_option text) eqn:E; [|reflexivity].
  exfalso. apply echo_option_chars in E.
  assert (Hlf : all_chars not_lf text = true).
  { revert E. apply all_chars_impl. intros c Hc. unfold not_lf, echo_char in *.
    destruct (ceq LF c) eqn:F; [|reflexivity]. apply ceq_true in F. subst c. discriminate. }
  assert (Hbt : all_chars (fun d => negb (ceq BACKTICK d)) text = true).
  { revert E. apply all_chars_impl. intros c Hc. unfold echo_char in *.
    destruct (ceq BACKTICK c) eqn:F; [|reflexivity]. apply ceq_true in F. subst c.
    discriminate. }
  unfold lines_of in Hlines. rewrite (lines_from_whole text EmptyString Hlf) in Hlines.
  change (rev_string EmptyString +:+ text) with text in Hlines.
  destruct (is_empty text).
  - destruct pre; discriminate.
  - destruct pre as [|x pre].
    + injection Hlines as Heq _. subst L.
      rewrite (no_backtick_no_block text Hbt) in HL. discriminate.
    + destruct pre; discriminate.
Qed.

(** X21. When some line of the text opens a block tagged bash,
    [_parse_first_markdown] writes what its last [sed] makes of the first
    such line alone: the lines inside the block, and everything else in the
    text, have no part in the result. *)
Theorem first_markdown_uses_fence_line_only (r : reading) (text : string)
    (pre post : list string) (L : string) :
  lines_of text = pre ++ L :: post ->
  (forall l, In l pre -> opens_bash_block l = false) ->
  opens_bash_block L = true ->
  _parse_first_markdown r text = sed (trim_script r) (echo L).
Proof.
  intros Hlines Hpre HL.
  assert (Hecho : echo text = text +:+ str1 LF).
  { unfold echo. rewrite (fence_text_is_no_option text pre post L Hlines HL). reflexivity. }
  assert (HLlf : all_chars not_lf L = true).
  { apply (lines_from_no_lf text EmptyString); [reflexivity|].
    fold (lines_of text). rewrite Hlines. apply in_or_app. right. left. reflexivity. }
  destruct (lines_from_final_lf_app text EmptyString) as (tl & Htl).
  assert (Hin : lines_of (echo text) = pre ++ L :: (post ++ tl)).
  { rewrite Hecho. unfold lines_of in *. rewrite Htl, Hlines, <- List.app_assoc.
    reflexivity. }
  destruct (range_opens_at bash_fence any_backtick pre (post ++ tl) L) with (active := @nil bool)
    as (out & Hout).
  { intros l Hl. rewrite bash_fence_exact. apply Hpre. exact Hl. }
  { rewrite bash_fence_exact. exact HL. }
  { reflexivity. }
  assert (Hfirst : command_substitution (head_n1 (sed bash_block_script (echo text))) = L).
  { unfold sed, bash_block_script. rewrite Hin, Hout. unfold head_n1, unlines at 2.
    simpl map. simpl concat_strings. unfold str1 at 1.
    rewrite app_assoc_str, app_cons, app_empty_l.
    unfold lines_of. rewrite (lines_from_line L _ EmptyString HLlf).
    simpl firstn. unfold unlines. simpl map. simpl concat_strings.
    rewrite app_empty_r. change (rev_string EmptyString +:+ L) with L.
    apply command_substitution_line. exact HLlf. }
  unfold _parse_first_markdown. cbv zeta. rewrite Hfirst.
  destruct L as [|c L]; [discriminate HL|]. reflexivity.
Qed.

Lemma first_markdown_uses_fence_line_only_witness :
  _parse_first_markdown AsWritten scenario_A = sed (trim_script AsWritten) (echo "```bash").
Proof.
  refine (first_markdown_uses_fence_line_only AsWritten scenario_A ["Run this:"]
            ["ls -la"; "```"; "Done."] "```bash" _ _ _).
  - vm_compute. reflexivity.
  - intros l [<-|[]]. vm_compute. reflexivity.
  - vm_compute. reflexivity.
Defined.

(** ** Texts without a block *)

(** A pattern that begins with a given character is found in no line that
    lacks the character. *)
Lemma search_from_cons (re : regex) (start : bool) (before : string) (d : ascii)
    (s : string) :
  search_from re start before (String d s) =
  match longest (rmatch re (MState start (String d s) None)) with
  | Some m => Some (rev_string before, m)
  | None => search_from re false (String d before) s
  end.
Proof. reflexivity. Qed.

Lemma rmatch_other_char (c d : ascii) (R : regex) (b : bool) (s : string)
    (g : option string) :
  ceq c d = false -> rmatch (Seq (Chr c) R) (MState b (String d s) g) = [].
Proof.
  intros H. change (rmatch (Seq (Chr c) R) (MState b (String d s) g))
    with (flat_map (rmatch R) (if ceq c d then [MState false s g] else [])).
  rewrite H. reflexivity.
Qed.

Lemma search_from_needs_char (c : ascii) (R : regex) (s : string) :
  all_chars (fun d => negb (ceq c d)) s = true ->
  forall start before, search_from (Seq (Chr c) R) start before s = None.
Proof.
  induction s as [|d s IH]; intros Hs start before.
  - reflexivity.
  - simpl in Hs. apply andb_prop in Hs as [Hd Hs]. apply negb_true_iff in Hd.
    rewrite search_from_cons, (rmatch_other_char c d R _ _ _ Hd).
    simpl longest. cbv iota. apply IH. exact Hs.
Qed.

Lemma substitute_needs_char (c : ascii) (R : regex) (rep : list replacement_piece)
    (l : string) :
  all_chars (fun d => negb (ceq c d)) l = true ->
  substitute (Seq (Chr c) R) rep l = l.
Proof.
  intros Hl. unfold substitute, regex_search.
  rewrite (search_from_needs_char c R l Hl). reflexivity.
Qed.

Lemma sed_subst_identity (c : ascii) (R : regex) (rep : list replacement_piece)
    (input : list string) :
  (forall l, In l input -> all_chars (fun d => negb (ceq c d)) l = true) ->
  forall active,
    sed_lines (SedScript false [Subst (Seq (Chr c) R) rep]) active input = input.
Proof.
  induction input as [|l input IH]; intros Hall active; [reflexivity|].
  simpl. rewrite substitute_needs_char by (apply Hall; left; reflexivity).
  simpl. f_equal. apply IH. intros l' Hl'. apply Hall. right. exact Hl'.
Qed.

Lemma unlines_lines_from (t cur : string) :
  unlines (lines_from cur (t +:+ str1 LF)) = rev_string cur +:+ t +:+ str1 LF.
Proof.
  revert cur. induction t as [|c t IH]; intros cur.
  - rewrite app_empty_l. simpl. unfold unlines. simpl. rewrite app_empty_r. reflexivity.
  - rewrite app_cons. simpl lines_from. destruct (ceq c LF) eqn:E.
    + apply ceq_true in E. subst c. unfold unlines in *. simpl map. simpl concat_strings.
      specialize (IH EmptyString). rewrite IH. rewrite !app_assoc_str. reflexivity.
    + rewrite IH, rev_string_cons, !app_assoc_str. reflexivity.
Qed.

Lemma unlines_lines_of_echo (text : string) :
  unlines (lines_of (echo text)) = echo text.
Proof.
  unfold echo. destruct (echo_option text).
  - destruct (contains "n" text); reflexivity.
  - unfold lines_of. rewrite unlines_lines_from. reflexivity.
Qed.

Lemma lines_of_echo_no_lf (text l : string) :
  In l (lines_of (echo text)) -> all_chars not_lf l = true.
Proof. apply lines_from_no_lf. reflexivity. Qed.

Lemma fallback_removes_nothing_aux (text : string) :
  sed (first_line_script AsWritten) (echo text) = echo text.
Proof.
  unfold sed, first_line_script.
  rewrite (sed_subst_identity LF (Star AnyChar) []).
  - apply unlines_lines_of_echo.
  - intros l Hl. exact (lines_of_echo_no_lf text l Hl).
Qed.

(** X22. As the script stands in the file, the third [sed] of
    [_parse_first_markdown], which is to keep the first line only, hands on
    every text as it gets it: a line never holds the line feed its pattern
    asks for. *)
Theorem fallback_removes_nothing (text : string) :
  sed (first_line_script AsWritten) (echo text) = echo text.
Proof. apply fallback_removes_nothing_aux. Qed.

Lemma lines_from_chars (P : ascii -> bool) (s : string) :
  forall cur l, all_chars P cur = true -> all_chars P s = true ->
    In l (lines_from cur s) -> all_chars P l = true.
Proof.
  induction s as [|c s IH]; intros cur l Hcur Hs Hin; simpl in Hin.
  - destruct (is_empty cur); [destruct Hin|]. destruct Hin as [<-|[]].
    rewrite all_chars_rev. exact Hcur.
  - simpl in Hs. apply andb_prop in Hs as [Hc Hs]. destruct (ceq c LF).
    + destruct Hin as [<-|Hin]; [rewrite all_chars_rev; exact Hcur|].
      apply (IH EmptyString); [reflexivity|exact Hs|exact Hin].
    + apply (IH (String c cur)); [|exact Hs|exact Hin].
      simpl. rewrite Hc. exact Hcur.
Qed.

Lemma no_backtick_no_range (text : string) (first : regex) :
  all_chars no_backtick text = true ->
  (forall l, all_chars no_backtick l = true -> line_matches first l = false) ->
  sed (Some (SedScript true [RangePrint first any_backtick])) (echo text) = EmptyString.
Proof.
  intros Htext Hfirst. unfold sed.
  rewrite range_never_opened; [reflexivity| |reflexivity].
  intros l Hl. apply Hfirst.
  apply lines_of_echo in Hl as [->|Hl]; [reflexivity|].
  apply (lines_from_chars no_backtick text EmptyString); [reflexivity|exact Htext|exact Hl].
Qed.

(** X23. On a text without any backtick neither fence pattern opens a
    range. As the scripts stand in the file the function then writes
    every line of the text, each only trimmed by its last [sed]; as Python
    evaluates them it writes one empty line whatever the text. *)
Theorem first_markdown_without_backtick (text : string) :
  all_chars no_backtick text = true ->
  _parse_first_markdown AsWritten text
    = sed (trim_script AsWritten) (echo (command_substitution (echo text)))
  /\ _parse_first_markdown AsEvaluated text = str1 LF.
Proof.
  intros Htext.
  assert (H1 : sed bash_block_script (echo text) = EmptyString).
  { apply no_backtick_no_range; [exact Htext|].
    intros l Hl. rewrite bash_fence_exact. apply no_backtick_no_block. exact Hl. }
  assert (H2 : sed any_block_script (echo text) = EmptyString).
  { apply no_backtick_no_range; [exact Htext|].
    intros l Hl. unfold line_matches, regex_search.
    change literal_brace_fence with (Seq (Chr BACKTICK) (Seq (lit "{1,}") Eol)).
    rewrite (search_from_needs_char BACKTICK _ l Hl). reflexivity. }
  unfold _parse_first_markdown. cbv zeta. rewrite H1, H2.
  change (command_substitution (head_n1 EmptyString)) with EmptyString.
  simpl is_empty. cbv iota. split.
  - rewrite fallback_removes_nothing_aux. reflexivity.
  - reflexivity.
Qed.

Lemma first_markdown_without_backtick_witness :
  _parse_first_markdown AsWritten "  pwd  "
    = sed (trim_script AsWritten) (echo (command_substitution (echo "  pwd  ")))
  /\ _parse_first_markdown AsEvaluated "  pwd  " = str1 LF.
Proof.
  refine (first_markdown_without_backtick "  pwd  " _).
  vm_compute. reflexivity.
Defined.
